(** * Promo Video AI: the video generation orchestrator

    A shallow embedding of [services/geminiService.ts] ([fileToBase64],
    [generateVideo]) and of the submit handler of [App.tsx]
    ([handleSubmit]), with the properties of the orchestration pipeline
    encode -> submit -> poll -> validate -> download -> expose; and of the
    rest of the component: the other handlers, the panels of
    [renderContent], and the two effects (loading messages, image preview).

    The browser and the generation service are an environment [Env] of
    oracles; every call into the environment is recorded in a trace of
    [Event]s, so that "how often" and "in which order" are statements about
    lists. *)

From Stdlib Require Import String Ascii NArith ZArith Bool List Lia.
Import ListNotations.

Set Implicit Arguments.

(** ** JavaScript strings

    A JS string is a sequence of UTF-16 code units. *)

Definition jsstring := list N.

(** A string literal of the source (all of them are ASCII). *)
Definition lit (s : string) : jsstring :=
  map N_of_ascii (list_ascii_of_string s).

(** ECMAScript [WhiteSpace] and [LineTerminator] code points, the ones
    [String.prototype.trim] strips. *)
Definition isWhiteSpace (c : N) : bool :=
  ((c =? 0x09) || (c =? 0x0B) || (c =? 0x0C) || (c =? 0x20) || (c =? 0xA0)
   || (c =? 0xFEFF) || (c =? 0x1680) || ((0x2000 <=? c) && (c <=? 0x200A))
   || (c =? 0x202F) || (c =? 0x205F) || (c =? 0x3000))%N.

Definition isLineTerminator (c : N) : bool :=
  ((c =? 0x0A) || (c =? 0x0D) || (c =? 0x2028) || (c =? 0x2029))%N.

Definition isTrimmed (c : N) : bool := isWhiteSpace c || isLineTerminator c.

Fixpoint trimStart (s : jsstring) : jsstring :=
  match s with
  | [] => []
  | c :: s' => if isTrimmed c then trimStart s' else s
  end.

Definition trimEnd (s : jsstring) : jsstring := rev (trimStart (rev s)).

(** [s.trim()] *)
Definition trim (s : jsstring) : jsstring := trimEnd (trimStart s).

(** [s.split(sep)] for a separator of one code unit. *)
Fixpoint split (sep : N) (s : jsstring) : list jsstring :=
  match s with
  | [] => [[]]
  | c :: s' =>
      if (c =? sep)%N then [] :: split sep s'
      else match split sep s' with
           | [] => [[c]]
           | w :: ws => (c :: w) :: ws
           end
  end.

(** Truthiness of a value of type [string | undefined]: [undefined] and the
    empty string are falsy. *)
Definition truthy (v : option jsstring) : bool :=
  match v with
  | Some (_ :: _) => true
  | _ => false
  end.

(** ** Thrown values, outcomes and the trace monad *)

(** What a [throw] or a rejected promise carries: an [Error] object with its
    message, or some other value (the [ProgressEvent] of a failed
    [FileReader], for one). *)
Inductive Thrown : Type :=
| Error (message : jsstring)
| NotAnError.

(** How far an [async] call got: it returned, it threw, or it is still
    suspended at an [await] when the observation ends. *)
Inductive Outcome (A : Type) : Type :=
| Returned (a : A)
| Threw (t : Thrown)
| Suspended.

Arguments Threw {A} t.
Arguments Suspended {A}.

Section Trace.
Variable Ev : Type.

(** A computation: the events it caused, in order, and its outcome. *)
Definition M (A : Type) : Type := (list Ev * Outcome A)%type.

Definition ret {A} (a : A) : M A := ([], Returned a).

Definition bind {A B} (m : M A) (k : A -> M B) : M B :=
  match m with
  | (t, Returned a) => let (t', r) := k a in (t ++ t', r)
  | (t, Threw e) => (t, Threw e)
  | (t, Suspended) => (t, Suspended)
  end.

Definition throw {A} (e : Thrown) : M A := ([], Threw e).

Definition suspended {A} : M A := ([], Suspended).

Definition emit (e : Ev) : M unit := ([e], Returned tt).

(** [await] of a call into the environment: the call is an event, and the
    promise it returns is fulfilled or rejected. *)
Definition await {A} (e : Ev) (r : Thrown + A) : M A :=
  ([e], match r with inl t => Threw t | inr a => Returned a end).

Definition trace {A} (m : M A) : list Ev := fst m.
Definition outcome {A} (m : M A) : Outcome A := snd m.
End Trace.

Arguments ret {Ev A} a.
Arguments bind {Ev A B} m k.
Arguments throw {Ev A} e.
Arguments suspended {Ev A}.
Arguments emit {Ev} e.
Arguments await {Ev A} e r.

Declare Scope js_scope.
Delimit Scope js_scope with js.
Notation "x <- m ;; k" := (bind m (fun x => k))
  (at level 61, m at next level, right associativity) : js_scope.
Notation "m ;; k" := (bind m (fun _ => k))
  (at level 61, right associativity) : js_scope.
Open Scope js_scope.

(** ** The platform: browser and SDK types *)

(** A browser [File]: its name and its MIME type. The content is read
    through [readAsDataURL] of the environment. *)
Record File := { name : jsstring; type : jsstring }.

(** The [image] field of the request. [imageBytes] is what
    [split(',')[1]] gave, which is [undefined] when there is no comma. *)
Record Image := { imageBytes : option jsstring; mimeType : jsstring }.

Record GenerateVideosConfig := { numberOfVideos : Z }.

Record GenerateVideosParameters := {
  model : jsstring;
  prompt : jsstring;
  image : option Image;
  config : GenerateVideosConfig
}.

Record Video := { uri : option jsstring }.
Record GeneratedVideo := { video : option Video }.
Record GenerateVideosResponse :=
  { generatedVideos : option (list GeneratedVideo) }.

(** The job handle: an identifier, the [done] flag and, once done, the
    response. *)
Record Operation := {
  id : jsstring;
  done : option bool;
  response : option GenerateVideosResponse
}.

Definition Blob := list Byte.byte.

(** The [Response] of [fetch]. [ok] is the platform's getter: true exactly
    for a status in the range 200-299. [blob] is the outcome of [blob()]. *)
Record Response := {
  ok : bool;
  statusText : jsstring;
  blob : Thrown + Blob
}.

(** The world outside the orchestrator. The service answers the [k]-th
    status request (counted from 0) with [getVideosOperation k]: the answer
    to the same handle changes as the job advances. *)
Record Env := {
  API_KEY : option jsstring;
  readAsDataURL : File -> option jsstring;
  generateVideos : GenerateVideosParameters -> Thrown + Operation;
  getVideosOperation : nat -> Operation -> Thrown + Operation;
  fetch : jsstring -> Thrown + Response;
  createObjectURL : Blob -> jsstring
}.

(** The observable effects, one constructor per call that leaves the
    program. *)
Inductive Event : Type :=
| Progress (message : jsstring)
| ReadFile (file : File)
| Submit (params : GenerateVideosParameters)
| Sleep (ms : Z)
| Poll (operation : Operation)
| Fetch (url : jsstring)
| ReadBody (r : Response)
| CreateObjectURL (b : Blob)
| ConsoleLog (message : jsstring)
| ConsoleError (err : Thrown)
| PreventDefault.

Definition Async := M Event.

(** ** services/geminiService.ts *)

Module geminiService.

(** [fileToBase64]: the promise resolves with [result.split(',')[1]] on
    [onload] and is rejected with the event on [onerror]. *)
Definition fileToBase64 (env : Env) (file : File) : Async (option jsstring) :=
  result <- await (ReadFile file)
              (match readAsDataURL env file with
               | Some result => inr result
               | None => inl NotAnError
               end) ;;
  ret (nth_error (split 0x2C result) 1).

(** [!operation.done] is false exactly when the flag is [true]. *)
Definition is_done (operation : Operation) : bool :=
  match done operation with
  | Some true => true
  | _ => false
  end.

(** The [while (!operation.done)] loop. [fuel] bounds the iterations that
    are observed; [k] counts the status requests made so far. *)
Fixpoint poll_loop (env : Env) (onProgress : jsstring -> Async unit)
    (fuel k : nat) (operation : Operation) : Async Operation :=
  if is_done operation then ret operation
  else match fuel with
       | O => suspended
       | S fuel' =>
           emit (Sleep 10000) ;;
           onProgress (lit "Checking video generation status...") ;;
           operation' <- await (Poll operation)
                           (getVideosOperation env k operation) ;;
           poll_loop env onProgress fuel' (S k) operation'
       end.

(** [operation.response?.generatedVideos?.[0]?.video?.uri] *)
Definition optional_uri (operation : Operation) : option jsstring :=
  match response operation with
  | None => None
  | Some r =>
      match generatedVideos r with
      | None => None
      | Some videos =>
          match nth_error videos 0 with
          | None => None
          | Some v =>
              match video v with
              | None => None
              | Some vid => uri vid
              end
          end
      end
  end.

(** A [string | undefined] inside a template literal. *)
Definition interpolate (v : option jsstring) : jsstring :=
  match v with
  | Some s => s
  | None => lit "undefined"
  end.

(** The [let imagePayload; if (imageFile) { ... }] block. *)
Definition encodeImage (env : Env) (imageFile : option File)
    (onProgress : jsstring -> Async unit) : Async (option Image) :=
  match imageFile with
  | Some file =>
      onProgress (lit "Encoding image...") ;;
      base64Data <- fileToBase64 env file ;;
      ret (Some {| imageBytes := base64Data; mimeType := type file |})
  | None => ret None
  end.

(** The argument of [ai.models.generateVideos]. *)
Definition parameters (prompt : jsstring) (imagePayload : option Image)
  : GenerateVideosParameters :=
  {| model := lit "veo-2.0-generate-001";
     prompt := prompt;
     image := imagePayload;
     config := {| numberOfVideos := 1 |} |}.

(** [generateVideo]. Building the client ([new GoogleGenAI]) calls nothing
    outside and leaves no event; [fuel] is handed to the poll loop. *)
Definition generateVideo (env : Env) (fuel : nat) (prompt : jsstring)
    (imageFile : option File) (onProgress : jsstring -> Async unit)
  : Async jsstring :=
  if negb (truthy (API_KEY env)) then
    throw (Error (lit "API_KEY environment variable not set"))
  else
    imagePayload <- encodeImage env imageFile onProgress ;;
    onProgress (lit "Sending request to AI...") ;;
    operation <- await (Submit (parameters prompt imagePayload))
                   (generateVideos env (parameters prompt imagePayload)) ;;
    onProgress (lit "AI is warming up... This may take a few minutes.") ;;
    operation <- poll_loop env onProgress fuel 0 operation ;;
    if negb (truthy (optional_uri operation)) then
      throw (Error (lit "Video generation failed or returned no URI."))
    else
      let downloadLink := optional_uri operation in
      onProgress (lit "Downloading generated video...") ;;
      let url := interpolate downloadLink ++ lit "&key="
                   ++ interpolate (API_KEY env) in
      response <- await (Fetch url) (fetch env url) ;;
      if negb (ok response) then
        throw (Error (lit "Failed to download video: "
                        ++ statusText response))
      else
        videoBlob <- await (ReadBody response) (blob response) ;;
        onProgress (lit "Finalizing video...") ;;
        await (CreateObjectURL videoBlob)
              (inr (createObjectURL env videoBlob)).

End geminiService.

(** ** App.tsx: the submit handler *)

Module App.

Inductive Status : Type := idle | loading | success | error.

(** The [useState] cells that [handleSubmit] reads or writes. *)
Record State := {
  prompt : jsstring;
  imageFile : option File;
  status : Status;
  errorMessage : jsstring;
  videoUrl : option jsstring
}.

Definition setStatus (v : Status) (s : State) : State :=
  {| prompt := prompt s; imageFile := imageFile s; status := v;
     errorMessage := errorMessage s; videoUrl := videoUrl s |}.

Definition setErrorMessage (v : jsstring) (s : State) : State :=
  {| prompt := prompt s; imageFile := imageFile s; status := status s;
     errorMessage := v; videoUrl := videoUrl s |}.

Definition setVideoUrl (v : option jsstring) (s : State) : State :=
  {| prompt := prompt s; imageFile := imageFile s; status := status s;
     errorMessage := errorMessage s; videoUrl := v |}.

(** The callback handed to [generateVideo]. *)
Definition onProgress (message : jsstring) : Async unit :=
  emit (ConsoleLog (lit "Progress: " ++ message)).

(** [err instanceof Error ? err.message : "An unknown error occurred."] *)
Definition messageOf (err : Thrown) : jsstring :=
  match err with
  | Error message => message
  | NotAnError => lit "An unknown error occurred."
  end.

(** [handleSubmit]: the events it causes and the state it leaves. A state
    still at [loading] means [generateVideo] has not settled yet. *)
Definition handleSubmit (env : Env) (fuel : nat) (s : State)
  : list Event * State :=
  match trim (prompt s) with
  | [] =>
      ([PreventDefault],
       setStatus error
         (setErrorMessage (lit "Please enter a prompt for your video.") s))
  | _ :: _ =>
      let s1 := setVideoUrl None (setErrorMessage [] (setStatus loading s)) in
      match geminiService.generateVideo env fuel (prompt s) (imageFile s)
              onProgress with
      | (t, Returned url) =>
          (PreventDefault :: t, setStatus success (setVideoUrl (Some url) s1))
      | (t, Threw err) =>
          (PreventDefault :: t ++ [ConsoleError err],
           setStatus error
             (setErrorMessage
                (lit "Failed to generate video: " ++ messageOf err) s1))
      | (t, Suspended) => (PreventDefault :: t, s1)
      end
  end.

(** *** The other handlers and the panels *)

Definition setPrompt (v : jsstring) (s : State) : State :=
  {| prompt := v; imageFile := imageFile s; status := status s;
     errorMessage := errorMessage s; videoUrl := videoUrl s |}.

Definition setImageFile (v : option File) (s : State) : State :=
  {| prompt := prompt s; imageFile := v; status := status s;
     errorMessage := errorMessage s; videoUrl := videoUrl s |}.

(** The cells as the component is mounted. *)
Definition initial : State :=
  {| prompt := []; imageFile := None; status := idle;
     errorMessage := []; videoUrl := None |}.

(** [handleImageChange]; [files] is [e.target.files], [null] or a list. *)
Definition handleImageChange (files : option (list File)) (s : State)
  : State :=
  match files with
  | Some (file :: _) => setImageFile (Some file) s
  | _ => s
  end.

Definition handleRemoveImage (s : State) : State := setImageFile None s.

(** [handleReset], on the cells of [State] ([imagePreview] is with its
    effect, [previewReset] below). *)
Definition handleReset (s : State) : State :=
  setStatus idle
    (setErrorMessage [] (setVideoUrl None (setImageFile None
                                             (setPrompt [] s)))).

(** [renderContent]: the panel the [switch (status)] returns. *)
Inductive Panel : Type :=
| LoadingIndicator
| VideoReady
| SomethingWentWrong
| Form.

Definition renderContent (s : State) : Panel :=
  match status s with
  | loading => LoadingIndicator
  | success => VideoReady
  | error => SomethingWentWrong
  | idle => Form
  end.

(** What the user can do with the controls of the panels. *)
Inductive Action : Type :=
| EditPrompt (v : jsstring)
| ChooseImage (files : option (list File))
| RemoveImage
| SubmitForm (env : Env) (fuel : nat)
| TryAgain
| CreateAnother.

(** An action on the page: the handler its control is bound to, when the
    panel shown has the control: the form has the text area, the file input,
    the remove button and the submit button; the error panel has "Try
    Again", bound to [() => setStatus('idle')] since [status] is ['error']
    there; the success panel has "Create Another Video", bound to
    [handleReset]. *)
Definition act (s : State) (a : Action) : State :=
  match renderContent s, a with
  | Form, EditPrompt v => setPrompt v s
  | Form, ChooseImage files => handleImageChange files s
  | Form, RemoveImage => handleRemoveImage s
  | Form, SubmitForm env fuel => snd (handleSubmit env fuel s)
  | SomethingWentWrong, TryAgain => setStatus idle s
  | VideoReady, CreateAnother => handleReset s
  | _, _ => s
  end.

(** *** The loading messages *)

Definition LOADING_MESSAGES : list jsstring :=
  [lit "Warming up the AI director...";
   lit "Scouting virtual locations...";
   lit "Casting digital actors...";
   lit "Adjusting the lighting...";
   lit "Action! The AI is filming...";
   lit "Processing dailies...";
   lit "Editing the final cut...";
   lit "Adding special effects...";
   lit "Rendering the masterpiece..."].

(** The state the first effect works on: the status of the last render,
    the [loadingMessage] cell ([undefined] is what an array read out of
    range would store), the ref, and the timers of the window: the live
    intervals, each with the [messageIndex] of its closure, and the next
    handle [setInterval] gives out. *)
Record Rotation := {
  rendered : Status;
  loadingMessage : option jsstring;
  loadingMessageIntervalRef : option N;
  intervals : list (N * nat);
  nextHandle : N
}.

Definition clearInterval (id : N) (timers : list (N * nat))
  : list (N * nat) :=
  filter (fun t => negb (fst t =? id)%N) timers.

(** Truthiness of the ref, a [number | null]. *)
Definition truthyRef (v : option N) : bool :=
  match v with
  | Some id => negb (id =? 0)%N
  | None => false
  end.

(** The body of the effect, run with the status of the render. *)
Definition loadingEffect (status : Status) (r : Rotation) : Rotation :=
  match status with
  | loading =>
      let messageIndex := 0 in
      {| rendered := status;
         loadingMessage := nth_error LOADING_MESSAGES messageIndex;
         loadingMessageIntervalRef := Some (nextHandle r);
         intervals := (nextHandle r, messageIndex) :: intervals r;
         nextHandle := (nextHandle r + 1)%N |}
  | _ =>
      if truthyRef (loadingMessageIntervalRef r) then
        {| rendered := status;
           loadingMessage := loadingMessage r;
           loadingMessageIntervalRef := None;
           intervals :=
             match loadingMessageIntervalRef r with
             | Some id => clearInterval id (intervals r)
             | None => intervals r
             end;
           nextHandle := nextHandle r |}
      else
        {| rendered := status;
           loadingMessage := loadingMessage r;
           loadingMessageIntervalRef := loadingMessageIntervalRef r;
           intervals := intervals r;
           nextHandle := nextHandle r |}
  end.

(** The function the effect returns. *)
Definition loadingCleanup (r : Rotation) : Rotation :=
  if truthyRef (loadingMessageIntervalRef r) then
    {| rendered := rendered r;
       loadingMessage := loadingMessage r;
       loadingMessageIntervalRef := loadingMessageIntervalRef r;
       intervals :=
         match loadingMessageIntervalRef r with
         | Some id => clearInterval id (intervals r)
         | None => intervals r
         end;
       nextHandle := nextHandle r |}
  else r.

(** The callback of the interval [id] fires (nothing happens when the
    interval is not live). *)
Definition tick (id : N) (r : Rotation) : Rotation :=
  match find (fun t => (fst t =? id)%N) (intervals r) with
  | None => r
  | Some (_, messageIndex) =>
      let messageIndex := (messageIndex + 1) mod length LOADING_MESSAGES in
      {| rendered := rendered r;
         loadingMessage := nth_error LOADING_MESSAGES messageIndex;
         loadingMessageIntervalRef := loadingMessageIntervalRef r;
         intervals :=
           map (fun t => if (fst t =? id)%N then (id, messageIndex) else t)
             (intervals r);
         nextHandle := nextHandle r |}
  end.

Definition sameStatus (a b : Status) : bool :=
  match a, b with
  | idle, idle | loading, loading | success, success | error, error => true
  | _, _ => false
  end.

(** What happens to the effect: a render with a status (the effect has
    [status] as its only dependency, so a render with the same status leaves
    it alone, and one with another status runs the cleanup of the last run
    and then the effect), or a timer firing. *)
Inductive Happening : Type :=
| Render (status : Status)
| Fire (id : N).

Definition happen (r : Rotation) (h : Happening) : Rotation :=
  match h with
  | Render status =>
      if sameStatus status (rendered r) then r
      else loadingEffect status (loadingCleanup r)
  | Fire id => tick id r
  end.

(** The first render: the effect runs with [status] ['idle'], the message
    cell holds [''], the ref [null], and the window gives out handles from
    1. *)
Definition mounted : Rotation :=
  loadingEffect idle
    {| rendered := idle; loadingMessage := Some [];
       loadingMessageIntervalRef := None; intervals := []; nextHandle := 1 |}.

(** Unmounting runs the cleanup of the last run. *)
Definition unmount (r : Rotation) : Rotation := loadingCleanup r.

(** *** The image preview *)

(** The state the second effect works on: the [imageFile] of the last
    render, the [imagePreview] cell, the [objectUrl] the cleanup of the last
    run holds (if it returned one), and the object URLs of the document:
    the live ones and the next one [createObjectURL] makes. Object URLs are
    told apart by a serial number. *)
Record Preview := {
  previewed : option File;
  imagePreview : option N;
  objectUrl : option N;
  liveUrls : list N;
  nextUrl : N
}.

Definition revokeObjectURL (u : N) (urls : list N) : list N :=
  filter (fun v => negb (v =? u)%N) urls.

(** The body of the effect, run with the [imageFile] of the render. *)
Definition previewEffect (imageFile : option File) (v : Preview) : Preview :=
  match imageFile with
  | Some _ =>
      {| previewed := imageFile;
         imagePreview := Some (nextUrl v);
         objectUrl := Some (nextUrl v);
         liveUrls := nextUrl v :: liveUrls v;
         nextUrl := (nextUrl v + 1)%N |}
  | None =>
      {| previewed := imageFile;
         imagePreview := None;
         objectUrl := None;
         liveUrls := liveUrls v;
         nextUrl := nextUrl v |}
  end.

(** The function the last run returned, if it returned one. *)
Definition previewCleanup (v : Preview) : Preview :=
  match objectUrl v with
  | Some u =>
      {| previewed := previewed v;
         imagePreview := imagePreview v;
         objectUrl := objectUrl v;
         liveUrls := revokeObjectURL u (liveUrls v);
         nextUrl := nextUrl v |}
  | None => v
  end.

(** A render after [setImageFile(imageFile)]: [null] after [null] is no
    change; a file is a new object each time it is chosen. *)
Definition renderImage (v : Preview) (imageFile : option File) : Preview :=
  match previewed v, imageFile with
  | None, None => v
  | _, _ => previewEffect imageFile (previewCleanup v)
  end.

(** [handleReset] on the preview: [setImagePreview(null)] and the render
    after [setImageFile(null)]. *)
Definition previewReset (v : Preview) : Preview :=
  renderImage
    {| previewed := previewed v; imagePreview := None;
       objectUrl := objectUrl v; liveUrls := liveUrls v;
       nextUrl := nextUrl v |}
    None.

Definition previewMounted : Preview :=
  previewEffect None
    {| previewed := None; imagePreview := None; objectUrl := None;
       liveUrls := []; nextUrl := 0 |}.

(** What happens to the preview: a render after [setImageFile], or
    [handleReset]. *)
Inductive ImageEvent : Type :=
| ImageSet (imageFile : option File)
| ResetPressed.

Definition previewHappen (v : Preview) (e : ImageEvent) : Preview :=
  match e with
  | ImageSet imageFile => renderImage v imageFile
  | ResetPressed => previewReset v
  end.

(** The event the callback of [handleSubmit] leaves for a message. *)
Definition logged (message : jsstring) : Event :=
  ConsoleLog (lit "Progress: " ++ message).

End App.

(** ** Reading a trace *)

Definition submits (t : list Event) : list GenerateVideosParameters :=
  flat_map (fun e => match e with Submit p => [p] | _ => [] end) t.

Definition polls (t : list Event) : list Operation :=
  flat_map (fun e => match e with Poll o => [o] | _ => [] end) t.

Definition fetches (t : list Event) : list jsstring :=
  flat_map (fun e => match e with Fetch u => [u] | _ => [] end) t.

Definition progress (t : list Event) : list jsstring :=
  flat_map (fun e => match e with Progress m => [m] | _ => [] end) t.

Definition fileReads (t : list Event) : list File :=
  flat_map (fun e => match e with ReadFile f => [f] | _ => [] end) t.

Definition objectURLs (t : list Event) : list Blob :=
  flat_map (fun e => match e with CreateObjectURL b => [b] | _ => [] end) t.

(** A call that goes over the network: submission, status request,
    download. *)
Definition isNetworkCall (e : Event) : bool :=
  match e with
  | Submit _ | Poll _ | Fetch _ | ReadBody _ => true
  | _ => false
  end.

(** The callback a test passes to observe the progress messages. *)
Definition record (message : jsstring) : Async unit :=
  emit (Progress message).

(** A callback that does nothing but leave one event per message. *)
Definition notifying (ev : jsstring -> Event) (message : jsstring)
  : Async unit :=
  emit (ev message).

(** ** How the service lets a job advance

    [PollsTo env k op pending opN]: with [k] status requests made so far and
    the handle [op] in hand, the service answers the handles of [pending],
    none of them done, one status request each, and the last answer [opN] is
    the first handle that is done. *)
Inductive PollsTo (env : Env)
  : nat -> Operation -> list Operation -> Operation -> Prop :=
| PollsTo_done k op :
    geminiService.is_done op = true ->
    PollsTo env k op [] op
| PollsTo_step k op op' pending opN :
    geminiService.is_done op = false ->
    getVideosOperation env k op = inr op' ->
    PollsTo env (S k) op' pending opN ->
    PollsTo env k op (op :: pending) opN.

(** One iteration of the poll loop as the source orders it. *)
Definition iteration (onProgress : jsstring -> Event) (op : Operation)
  : list Event :=
  [Sleep 10000; onProgress (lit "Checking video generation status...");
   Poll op].

(** What a call has caused when control leaves the poll loop: the events of
    the image block, the submission between its two messages, and one
    iteration per handle that was not done. *)
Definition upToTerminal (onProgress : jsstring -> Event)
    (encoding : list Event) (params : GenerateVideosParameters)
    (pending : list Operation) : list Event :=
  encoding
  ++ [onProgress (lit "Sending request to AI...");
      Submit params;
      onProgress (lit "AI is warming up... This may take a few minutes.")]
  ++ flat_map (iteration onProgress) pending.

Definition isSubmit (e : Event) : bool :=
  match e with
  | Submit _ => true
  | _ => false
  end.

(** A trace without a submission. *)
Definition noSubmit (t : list Event) : Prop :=
  Forall (fun e => isSubmit e = false) t.

(** ** Data URLs *)

(** The part of [s] after the first occurrence of [sep], if there is one. *)
Fixpoint afterFirst (sep : N) (s : jsstring) : option jsstring :=
  match s with
  | [] => None
  | c :: s' => if (c =? sep)%N then Some s' else afterFirst sep s'
  end.

(** The base64 alphabet: letters, digits, [+], [/] and the padding [=]. *)
Definition isBase64 (c : N) : bool :=
  (((0x41 <=? c) && (c <=? 0x5A)) || ((0x61 <=? c) && (c <=? 0x7A))
   || ((0x30 <=? c) && (c <=? 0x39)) || (c =? 0x2B) || (c =? 0x2F)
   || (c =? 0x3D))%N.

(** ** Sample worlds *)

Definition pendingOperation : Operation :=
  {| id := lit "operations/42"; done := None; response := None |}.

Definition runningOperation : Operation :=
  {| id := lit "operations/42"; done := Some false; response := None |}.

Definition finishedOperation (u : option jsstring) : Operation :=
  {| id := lit "operations/42"; done := Some true;
     response :=
       Some {| generatedVideos := Some [ {| video := Some {| uri := u |} |} ]
            |} |}.

Definition failedOperation : Operation :=
  {| id := lit "operations/42"; done := Some true; response := None |}.

Definition sampleResponse (good : bool) (text : string) : Response :=
  {| ok := good; statusText := lit text; blob := inr [Byte.x00; Byte.x01] |}.

(** A world with the given key, the given answer to the submission, the
    given answers to the status requests and the given download. *)
Definition world (key : option jsstring) (first : Operation)
    (answers : list Operation) (download : Response) : Env :=
  {| API_KEY := key;
     readAsDataURL := fun f => Some (lit "data:" ++ type f
                                       ++ lit ";base64,iVBORw0KGgo=");
     generateVideos := fun _ => inr first;
     getVideosOperation := fun k _ =>
       match nth_error answers k with
       | Some o => inr o
       | None => inl (Error (lit "deadline exceeded"))
       end;
     fetch := fun _ => inr download;
     createObjectURL := fun _ => lit "blob:http://localhost/1f0c" |}.

Definition sampleLink : jsstring :=
  lit "https://example.test/v1/files/abc:download?alt=media".

Definition samplePrompt : jsstring := lit "a cat skateboarding".

Definition sampleFile : File :=
  {| name := lit "seed.png"; type := lit "image/png" |}.


Definition sampleState (p : jsstring) (f : option File) : App.State :=
  {| App.prompt := p; App.imageFile := f; App.status := App.idle;
     App.errorMessage := []; App.videoUrl := None |}.

Definition sampleKey : jsstring := lit "AIzaSyD-sample".

(** The job is done when the submission returns. *)
Definition readyWorld : Env :=
  world (Some sampleKey) (finishedOperation (Some sampleLink)) []
    (sampleResponse true "OK").

(** The job takes two status requests. *)
Definition slowWorld : Env :=
  world (Some sampleKey) pendingOperation
    [runningOperation; finishedOperation (Some sampleLink)]
    (sampleResponse true "OK").

(** The job ends without a video. *)
Definition emptyWorld : Env :=
  world (Some sampleKey) pendingOperation [failedOperation]
    (sampleResponse true "OK").

(** The download is refused. *)
Definition refusedWorld : Env :=
  world (Some sampleKey) pendingOperation
    [finishedOperation (Some sampleLink)]
    (sampleResponse false "Not Found").

(** No credential is configured. *)
Definition keylessWorld : Env :=
  world None pendingOperation
    [runningOperation; finishedOperation (Some sampleLink)]
    (sampleResponse true "OK").

(** ** More ways to read a trace *)

Definition consoleLogs (t : list Event) : list jsstring :=
  flat_map (fun e => match e with ConsoleLog m => [m] | _ => [] end) t.

Definition sleeps (t : list Event) : list Z :=
  flat_map (fun e => match e with Sleep ms => [ms] | _ => [] end) t.

(** The network calls of a trace, by kind and in order. *)
Inductive Call : Type := SubmitCall | PollCall | FetchCall | BodyCall.

Definition networkCalls (t : list Event) : list Call :=
  flat_map (fun e => match e with
                     | Submit _ => [SubmitCall]
                     | Poll _ => [PollCall]
                     | Fetch _ => [FetchCall]
                     | ReadBody _ => [BodyCall]
                     | _ => []
                     end) t.

(** The event another callback leaves where the recording one leaves
    [Progress]. *)
Definition relabel (ev : jsstring -> Event) (e : Event) : Event :=
  match e with
  | Progress m => ev m
  | _ => e
  end.

(** The part of [s] before the first occurrence of [sep] (all of [s] when
    there is none). *)
Fixpoint before (sep : N) (s : jsstring) : jsstring :=
  match s with
  | [] => []
  | c :: s' => if (c =? sep)%N then [] else c :: before sep s'
  end.

(** [threaded env k op handles]: the handles are the arguments of
    successive status requests that start with [op] as the [k]-th request:
    none of them is done, and each one after the first is the answer to the
    request before it. *)
Fixpoint threaded (env : Env) (k : nat) (op : Operation)
    (handles : list Operation) : Prop :=
  match handles with
  | [] => True
  | h :: rest =>
      h = op /\ geminiService.is_done op = false /\
      match rest with
      | [] => True
      | _ :: _ =>
          exists op', getVideosOperation env k op = inr op'
                      /\ threaded env (S k) op' rest
      end
  end.

(** [PollsFail env k op pending e]: the service answers the handles of
    [pending] but the last, none of them done, and rejects the status
    request for the last one with [e]. *)
Inductive PollsFail (env : Env)
  : nat -> Operation -> list Operation -> Thrown -> Prop :=
| PollsFail_now k op e :
    geminiService.is_done op = false ->
    getVideosOperation env k op = inl e ->
    PollsFail env k op [op] e
| PollsFail_later k op op' pending e :
    geminiService.is_done op = false ->
    getVideosOperation env k op = inr op' ->
    PollsFail env (S k) op' pending e ->
    PollsFail env k op (op :: pending) e.

(** The job never finishes. *)
Definition stuckWorld : Env :=
  {| API_KEY := Some sampleKey;
     readAsDataURL := fun _ => None;
     generateVideos := fun _ => inr pendingOperation;
     getVideosOperation := fun _ _ => inr runningOperation;
     fetch := fun _ => inl (Error (lit "Failed to fetch"));
     createObjectURL := fun _ => lit "blob:http://localhost/1f0c" |}.

(** The submission is rejected. *)
Definition rejectingWorld : Env :=
  {| API_KEY := Some sampleKey;
     readAsDataURL := fun _ => Some (lit "no comma here");
     generateVideos := fun _ => inl (Error (lit "quota exceeded"));
     getVideosOperation := fun _ _ => inr runningOperation;
     fetch := fun _ => inl (Error (lit "Failed to fetch"));
     createObjectURL := fun _ => lit "blob:http://localhost/1f0c" |}.

(** The second status request is rejected. *)
Definition flakyWorld : Env :=
  world (Some sampleKey) pendingOperation [runningOperation]
    (sampleResponse true "OK").

(** The download is answered, but its body cannot be read. *)
Definition truncatedWorld : Env :=
  world (Some sampleKey) pendingOperation
    [finishedOperation (Some sampleLink)]
    {| ok := true; statusText := lit "OK";
       blob := inl (Error (lit "network error")) |}.

(** The events a call with the recording callback can cause: all but the
    ones of the page itself. *)
Definition fromCall (e : Event) : bool :=
  match e with
  | ConsoleLog _ | ConsoleError _ | PreventDefault => false
  | _ => true
  end.

(** What the cells of the page keep, whatever the user does. *)
Definition pageInvariant (s : App.State) : Prop :=
  (App.videoUrl s <> None <-> App.status s = App.success)
  /\ (App.status s = App.error -> App.errorMessage s <> [])
  /\ (App.status s = App.success \/ App.status s = App.loading ->
      App.errorMessage s = []).

(** What the first effect keeps: while the loading panel is rendered there
    is one live interval, the one of the ref, and the message is the one at
    the index of its closure; otherwise there is no interval and the ref is
    [null]. *)
Definition rotationInvariant (r : App.Rotation) : Prop :=
  (1 <= App.nextHandle r)%N
  /\ match App.rendered r with
     | App.loading =>
         exists id i,
           id <> 0%N
           /\ App.loadingMessageIntervalRef r = Some id
           /\ App.intervals r = [(id, i)]
           /\ i < length App.LOADING_MESSAGES
           /\ App.loadingMessage r = nth_error App.LOADING_MESSAGES i
     | _ =>
         App.loadingMessageIntervalRef r = None /\ App.intervals r = []
     end.

(** What the second effect keeps: with an image there is one live object
    URL, the one shown and held by the cleanup; without, none. *)
Definition previewInvariant (v : App.Preview) : Prop :=
  match App.previewed v with
  | Some _ =>
      exists u, App.imagePreview v = Some u
                /\ App.objectUrl v = Some u
                /\ App.liveUrls v = [u]
  | None =>
      App.imagePreview v = None
      /\ App.objectUrl v = None
      /\ App.liveUrls v = []
  end.

(** * Properties *)

Import geminiService.

Arguments lit : simpl never.

(** ** The trace monad *)

Section BindLaws.
Context {Ev A B : Type}.

Lemma trace_bind (m : M Ev A) (k : A -> M Ev B) :
  trace (bind m k) =
  trace m ++ match outcome m with
             | Returned a => trace (k a)
             | _ => []
             end.
Proof.
  destruct m as [t [a | e | ]]; cbn.
  - destruct (k a); reflexivity.
  - now rewrite app_nil_r.
  - now rewrite app_nil_r.
Qed.

Lemma outcome_bind (m : M Ev A) (k : A -> M Ev B) :
  outcome (bind m k) =
  match outcome m with
  | Returned a => outcome (k a)
  | Threw e => Threw e
  | Suspended => Suspended
  end.
Proof.
  destruct m as [t [a | e | ]]; cbn; try reflexivity.
  destruct (k a); reflexivity.
Qed.

Lemma bind_returned (t : list Ev) (a : A) (k : A -> M Ev B) :
  bind (t, Returned a) k = (t ++ trace (k a), outcome (k a)).
Proof. cbn. destruct (k a); reflexivity. Qed.

End BindLaws.

Lemma run_eta {Ev A} (m : M Ev A) : m = (trace m, outcome m).
Proof. now destruct m. Qed.

Lemma bind_emit {B} (e : Event) (k : unit -> Async B) :
  bind (emit e) k = (e :: trace (k tt), outcome (k tt)).
Proof. cbn. now destruct (k tt). Qed.

Lemma bind_notifying {B} ev (m : jsstring) (k : unit -> Async B) :
  bind (notifying ev m) k = (ev m :: trace (k tt), outcome (k tt)).
Proof. apply bind_emit. Qed.

Lemma bind_await_inr {A B} (e : Event) (a : A) (k : A -> Async B) :
  bind (await e (inr a)) k = (e :: trace (k a), outcome (k a)).
Proof. cbn. now destruct (k a). Qed.

Lemma bind_await_inl {A B} (e : Event) (t : Thrown) (k : A -> Async B) :
  bind (await e (inl t)) k = ([e], Threw t).
Proof. reflexivity. Qed.

(** ** Strings *)

Lemma trimStart_blank (s : jsstring) :
  trimStart s = [] <-> forallb isTrimmed s = true.
Proof.
  induction s as [| c s IH]; cbn.
  - tauto.
  - destruct (isTrimmed c); cbn.
    + exact IH.
    + split; discriminate.
Qed.

Lemma trimStart_head (s : jsstring) (c : N) (r : jsstring) :
  trimStart s = c :: r -> isTrimmed c = false.
Proof.
  induction s as [| d s IH]; cbn; [discriminate |].
  destruct (isTrimmed d) eqn:E; [exact IH |].
  intros [= <- _]. exact E.
Qed.

(** [trim] leaves nothing exactly of the strings made of white space and
    line terminators only (the empty string among them). *)
Lemma trim_blank (s : jsstring) :
  trim s = [] <-> forallb isTrimmed s = true.
Proof.
  unfold trim, trimEnd. split.
  - intros H. apply trimStart_blank.
    destruct (trimStart s) as [| c r] eqn:E; [reflexivity | exfalso].
    apply (f_equal (@rev N)) in H. rewrite rev_involutive in H.
    change (rev []) with (@nil N) in H.
    apply trimStart_blank in H. rewrite forallb_forall in H.
    specialize (H c). rewrite <- in_rev in H.
    rewrite (trimStart_head _ E) in H.
    specialize (H (or_introl eq_refl)). discriminate.
  - intros H. apply trimStart_blank in H. now rewrite H.
Qed.

Lemma split_cons (sep : N) (s : jsstring) :
  exists w ws, split sep s = w :: ws.
Proof.
  destruct s as [| c s]; cbn; [now eexists; eexists |].
  destruct (c =? sep)%N; [now eexists; eexists |].
  destruct (split sep s); now eexists; eexists.
Qed.


(** The second piece of a split starts right after the first separator. *)
Lemma split_second (sep : N) (s rest : jsstring) :
  afterFirst sep s = Some rest ->
  nth_error (split sep s) 1 = hd_error (split sep rest).
Proof.
  induction s as [| c s IH]; cbn; [discriminate |].
  destruct (c =? sep)%N.
  - intros [= ->]. reflexivity.
  - intros H. specialize (IH H).
    destruct (split_cons sep s) as (w & ws & E). rewrite E in IH |- *.
    exact IH.
Qed.

(** With a second comma the second piece ends there. *)
Example split_stops_at_next_comma :
  nth_error (split 0x2C (lit "data:a,b;base64,QUJD")) 1
  = Some (lit "b;base64").
Proof. reflexivity. Qed.

Lemma isBase64_not_comma (c : N) :
  isBase64 c = true -> negb (c =? 0x2C)%N = true.
Proof.
  unfold isBase64. intros H.
  destruct (N.eqb_spec c 0x2C) as [-> |]; [discriminate H | reflexivity].
Qed.

(** ** The poll loop *)

Section PollLoop.
Variable env : Env.
Variable ev : jsstring -> Event.

Lemma poll_loop_done (fuel k : nat) (op : Operation) :
  is_done op = true ->
  poll_loop env (notifying ev) fuel k op = ([], Returned op).
Proof. intros H. destruct fuel; cbn; now rewrite H. Qed.

Lemma poll_loop_step (fuel k : nat) (op : Operation) :
  is_done op = false ->
  poll_loop env (notifying ev) (S fuel) k op =
  match getVideosOperation env k op with
  | inr op' =>
      (iteration ev op
       ++ trace (poll_loop env (notifying ev) fuel (S k) op'),
       outcome (poll_loop env (notifying ev) fuel (S k) op'))
  | inl e => (iteration ev op, Threw e)
  end.
Proof.
  intros H. cbn [poll_loop]. rewrite H. rewrite !bind_emit.
  destruct (getVideosOperation env k op) as [e | op'].
  - now rewrite bind_await_inl.
  - now rewrite bind_await_inr.
Qed.

(** Enough fuel runs the loop to the first handle that is done. *)
Lemma poll_loop_PollsTo k op pending opN :
  PollsTo env k op pending opN ->
  forall fuel, length pending <= fuel ->
  poll_loop env (notifying ev) fuel k op =
  (flat_map (iteration ev) pending, Returned opN).
Proof.
  induction 1 as [k op Hd | k op op' pending opN Hd Hget _ IH];
    intros fuel Hfuel.
  - now apply poll_loop_done.
  - destruct fuel as [| fuel]; [cbn in Hfuel; lia |].
    rewrite (poll_loop_step _ _ _ Hd), Hget.
    rewrite IH by (cbn in Hfuel; lia). reflexivity.
Qed.

(** Control leaves the loop normally only with a handle that is done. *)
Lemma poll_loop_returned fuel :
  forall k op op',
  outcome (poll_loop env (notifying ev) fuel k op) = Returned op' ->
  is_done op' = true.
Proof.
  induction fuel as [| fuel IH]; intros k op op'.
  - cbn. destruct (is_done op) eqn:E; cbn; [| discriminate].
    now intros [= <-].
  - destruct (is_done op) eqn:E.
    + rewrite (poll_loop_done _ _ _ E). cbn. now intros [= <-].
    + rewrite (poll_loop_step _ _ _ E).
      destruct (getVideosOperation env k op) as [e | op1]; cbn;
        [discriminate | apply IH].
Qed.

(** Whatever the service does, the trace of the loop is made of whole
    iterations. *)
Lemma poll_loop_iterations fuel :
  forall k op, exists handles,
  trace (poll_loop env (notifying ev) fuel k op)
  = flat_map (iteration ev) handles.
Proof.
  induction fuel as [| fuel IH]; intros k op.
  - exists []. cbn. now destruct (is_done op).
  - destruct (is_done op) eqn:E.
    + exists []. now rewrite (poll_loop_done _ _ _ E).
    + rewrite (poll_loop_step _ _ _ E).
      destruct (getVideosOperation env k op) as [e | op1].
      * exists [op]. cbn. reflexivity.
      * destruct (IH (S k) op1) as [hs Hhs]. exists (op :: hs).
        cbn [trace fst flat_map]. now rewrite <- Hhs.
Qed.

End PollLoop.

(** Derives [PollsTo] in a concrete world by running the service. *)
Ltac polls_to :=
  repeat first
    [ apply PollsTo_done; reflexivity
    | eapply PollsTo_step; [reflexivity | reflexivity |] ].

Lemma PollsTo_pending env k op pending opN :
  PollsTo env k op pending opN ->
  Forall (fun o => is_done o = false) pending /\ is_done opN = true.
Proof.
  induction 1 as [k op Hd | k op op' pending opN Hd _ _ [IH1 IH2]].
  - now split.
  - split; [constructor |]; assumption.
Qed.

Lemma polls_iterations (ev : jsstring -> Event) (handles : list Operation) :
  (forall m, polls [ev m] = []) ->
  polls (flat_map (iteration ev) handles) = handles.
Proof.
  intros Hev. induction handles as [| o hs IH]; [reflexivity |].
  cbn [flat_map]. unfold polls in *. rewrite flat_map_app, IH.
  unfold iteration. cbn [flat_map app].
  specialize (Hev (lit "Checking video generation status...")).
  cbn in Hev. rewrite app_nil_r in Hev. now rewrite Hev.
Qed.

(** C1 (as the code has it): the loop requests the status once per handle
    that is not done, hence not at all when the handle of the submission is
    done already; it is left with the first handle whose [done] flag is
    true, and control never leaves it normally with a handle whose flag is
    not true. *)
Theorem poll_loop_exits_at_first_done :
  forall env k op pending opN fuel,
    PollsTo env k op pending opN ->
    length pending <= fuel ->
    outcome (poll_loop env record fuel k op) = Returned opN
    /\ polls (trace (poll_loop env record fuel k op)) = pending
    /\ Forall (fun o => is_done o = false) pending
    /\ is_done opN = true
    /\ (forall fuel' k' op0 op',
          outcome (poll_loop env record fuel' k' op0) = Returned op' ->
          is_done op' = true).
Proof.
  intros env k op pending opN fuel Hp Hfuel.
  pose proof (poll_loop_PollsTo Progress Hp Hfuel) as E.
  change (notifying Progress) with record in E.
  destruct (PollsTo_pending Hp) as [Hpend Hdone].
  rewrite E. cbn [trace outcome fst snd].
  repeat split; try assumption.
  - now apply polls_iterations.
  - intros fuel' k' op0 op'. apply (poll_loop_returned env Progress).
Qed.

(** C1 at a job that needs two status requests. *)
Lemma poll_loop_exits_at_first_done_witness :
  PollsTo slowWorld 0 pendingOperation [pendingOperation; runningOperation]
    (finishedOperation (Some sampleLink))
  /\ 2 <= 5
  /\ outcome (poll_loop slowWorld record 5 0 pendingOperation)
     = Returned (finishedOperation (Some sampleLink))
  /\ polls (trace (poll_loop slowWorld record 5 0 pendingOperation))
     = [pendingOperation; runningOperation].
Proof.
  assert (Hp : PollsTo slowWorld 0 pendingOperation
                 [pendingOperation; runningOperation]
                 (finishedOperation (Some sampleLink))).
  { polls_to. }
  assert (Hf : 2 <= 5) by lia.
  destruct (poll_loop_exits_at_first_done (fuel := 5) Hp Hf)
    as (H1 & H2 & _).
  repeat split; assumption.
Defined.

(** C1 as stated fails: a job whose handle is done when the submission
    returns is submitted, and its status is never requested. *)
Lemma status_not_requested_when_done_at_once :
  submits (trace (generateVideo readyWorld 3 samplePrompt None record))
  = [parameters samplePrompt None]
  /\ ~ 1 <= length
            (polls (trace (generateVideo readyWorld 3 samplePrompt None
                             record))).
Proof. vm_compute. split; [reflexivity | lia]. Qed.

(** C2 (as the code has it): the trace of the loop is, for each status
    request in turn, the 10000 ms sleep, then the progress message, then the
    request; the delay is the same constant in every iteration, whatever the
    service answers. *)
Theorem poll_iteration_order :
  forall env fuel k op,
    trace (poll_loop env record fuel k op) =
    flat_map
      (fun o => [Sleep 10000;
                 Progress (lit "Checking video generation status...");
                 Poll o])
      (polls (trace (poll_loop env record fuel k op))).
Proof.
  intros env fuel k op.
  destruct (poll_loop_iterations env Progress fuel k op) as [hs Hhs].
  change (notifying Progress) with record in Hhs.
  rewrite Hhs at 2. rewrite polls_iterations by reflexivity. exact Hhs.
Qed.

(** C2 as stated fails: the status is not requested before the progress
    message. *)
Lemma status_requested_after_progress :
  trace (poll_loop slowWorld record 5 0 pendingOperation) <>
  flat_map
    (fun o => [Sleep 10000;
               Poll o;
               Progress (lit "Checking video generation status...")])
    (polls (trace (poll_loop slowWorld record 5 0 pendingOperation))).
Proof. vm_compute. discriminate. Qed.

(** ** The whole call *)

(** Without a credential nothing is called, not even the callback. *)
Lemma generateVideo_no_key env fuel p img onProgress :
  truthy (API_KEY env) = false ->
  generateVideo env fuel p img onProgress =
  ([], Threw (Error (lit "API_KEY environment variable not set"))).
Proof. intros H. unfold generateVideo. now rewrite H. Qed.

Section Call.
Variable env : Env.
Variable ev : jsstring -> Event.

Lemma encodeImage_trace img :
  trace (encodeImage env img (notifying ev)) =
  match img with
  | Some f => [ev (lit "Encoding image..."); ReadFile f]
  | None => []
  end.
Proof.
  destruct img as [f |]; [| reflexivity].
  cbn. now destruct (readAsDataURL env f).
Qed.

Lemma encodeImage_outcome img :
  outcome (encodeImage env img (notifying ev)) =
  match img with
  | Some f =>
      match readAsDataURL env f with
      | Some d =>
          Returned (Some {| imageBytes := nth_error (split 0x2C d) 1;
                            mimeType := type f |})
      | None => Threw NotAnError
      end
  | None => Returned None
  end.
Proof.
  destruct img as [f |]; [| reflexivity].
  cbn. now destruct (readAsDataURL env f).
Qed.

Section Terminal.
Variables (fuel : nat) (p key : jsstring) (img : option File).
Variables (payload : option Image) (op0 opN : Operation).
Variable pending : list Operation.

Hypothesis Hkey : API_KEY env = Some key.
Hypothesis Hkey_ne : key <> [].
Hypothesis Henc :
  outcome (encodeImage env img (notifying ev)) = Returned payload.
Hypothesis Hsub : generateVideos env (parameters p payload) = inr op0.
Hypothesis Hpoll : PollsTo env 0 op0 pending opN.
Hypothesis Hfuel : length pending <= fuel.

Lemma generateVideo_to_terminal (K : Operation -> Async jsstring) :
  (imagePayload <- encodeImage env img (notifying ev) ;;
   notifying ev (lit "Sending request to AI...") ;;
   operation <- await (Submit (parameters p imagePayload))
                  (generateVideos env (parameters p imagePayload)) ;;
   notifying ev (lit "AI is warming up... This may take a few minutes.") ;;
   operation <- poll_loop env (notifying ev) fuel 0 operation ;;
   K operation)
  = (upToTerminal ev (trace (encodeImage env img (notifying ev)))
       (parameters p payload) pending
     ++ trace (K opN),
     outcome (K opN)).
Proof.
  rewrite (run_eta (encodeImage env img (notifying ev))), Henc.
  rewrite bind_returned.
  rewrite Hsub, bind_notifying, bind_await_inr, bind_notifying.
  rewrite (poll_loop_PollsTo ev Hpoll Hfuel), bind_returned.
  cbn [trace outcome fst snd]. unfold upToTerminal.
  f_equal. cbn [app]. rewrite <- !app_assoc. reflexivity.
Qed.

(** A terminal handle without a usable reference ends the call at once. *)
Lemma generateVideo_no_uri :
  truthy (optional_uri opN) = false ->
  generateVideo env fuel p img (notifying ev) =
  (upToTerminal ev (trace (encodeImage env img (notifying ev)))
     (parameters p payload) pending,
   Threw (Error (lit "Video generation failed or returned no URI."))).
Proof.
  intros Hu. unfold generateVideo. rewrite Hkey.
  destruct key as [| c key']; [congruence |]. cbn [truthy negb].
  rewrite generateVideo_to_terminal, Hu. cbn. now rewrite app_nil_r.
Qed.

(** A terminal handle with a reference leads to one download request, and
    the rest of the call follows the answer to it. *)
Lemma generateVideo_download link :
  optional_uri opN = Some link ->
  link <> [] ->
  generateVideo env fuel p img (notifying ev) =
  let url := link ++ lit "&key=" ++ key in
  let asked :=
    upToTerminal ev (trace (encodeImage env img (notifying ev)))
      (parameters p payload) pending
    ++ [ev (lit "Downloading generated video..."); Fetch url] in
  match fetch env url with
  | inl e => (asked, Threw e)
  | inr r =>
      if ok r then
        match blob r with
        | inl e => (asked ++ [ReadBody r], Threw e)
        | inr b =>
            (asked ++ [ReadBody r; ev (lit "Finalizing video...");
                       CreateObjectURL b],
             Returned (createObjectURL env b))
        end
      else
        (asked,
         Threw (Error (lit "Failed to download video: " ++ statusText r)))
  end.
Proof.
  intros Hu Hl. unfold generateVideo. rewrite Hkey.
  destruct key as [| c key'] eqn:Ek; [congruence |]. cbn [truthy negb].
  rewrite generateVideo_to_terminal, Hu.
  destruct link as [| d link'] eqn:El; [congruence |].
  cbn [truthy negb interpolate]. rewrite bind_notifying.
  destruct (fetch env _) as [e | r].
  - rewrite bind_await_inl. reflexivity.
  - rewrite bind_await_inr. destruct (ok r); cbn [negb].
    + destruct (blob r) as [e | b].
      * rewrite bind_await_inl. cbn [trace outcome fst snd].
        now rewrite <- app_assoc.
      * rewrite bind_await_inr, bind_notifying.
        cbn [trace outcome fst snd await]. now rewrite <- app_assoc.
    + reflexivity.
Qed.

End Terminal.
End Call.

(** ** Submissions in a trace *)

Lemma noSubmit_submits t : noSubmit t -> submits t = [].
Proof.
  induction 1 as [| e t He _ IH]; [reflexivity |].
  unfold submits in *. cbn [flat_map]. rewrite IH.
  now destruct e.
Qed.

Lemma noSubmit_bind {A B} (m : Async A) (k : A -> Async B) :
  noSubmit (trace m) ->
  (forall a, noSubmit (trace (k a))) ->
  noSubmit (trace (bind m k)).
Proof.
  intros Hm Hk. rewrite trace_bind. apply Forall_app. split; [exact Hm |].
  destruct (outcome m); [apply Hk | constructor | constructor].
Qed.

Lemma noSubmit_await {A} (e : Event) (r : Thrown + A) :
  isSubmit e = false -> noSubmit (trace (await e r)).
Proof. intros H. now repeat constructor. Qed.

Lemma submits_app t1 t2 : submits (t1 ++ t2) = submits t1 ++ submits t2.
Proof. apply flat_map_app. Qed.

Section Quiet.
Variable env : Env.
Variable ev : jsstring -> Event.
Hypothesis Hev : forall m, isSubmit (ev m) = false.

Lemma noSubmit_notifying m : noSubmit (trace (notifying ev m)).
Proof. repeat constructor. apply Hev. Qed.

Lemma noSubmit_poll_loop fuel k op :
  noSubmit (trace (poll_loop env (notifying ev) fuel k op)).
Proof.
  destruct (poll_loop_iterations env ev fuel k op) as [hs ->].
  induction hs as [| o hs IH]; [constructor |].
  cbn [flat_map]. apply Forall_app. split; [| exact IH].
  repeat constructor. apply Hev.
Qed.

Lemma noSubmit_encodeImage img :
  noSubmit (trace (encodeImage env img (notifying ev))).
Proof.
  rewrite encodeImage_trace. destruct img; repeat constructor. apply Hev.
Qed.

(** The call submits at most once: once when the credential is there and
    the image block succeeds, and not at all otherwise. *)
Lemma submits_generateVideo fuel p img :
  submits (trace (generateVideo env fuel p img (notifying ev))) =
  if truthy (API_KEY env) then
    match outcome (encodeImage env img (notifying ev)) with
    | Returned payload => [parameters p payload]
    | _ => []
    end
  else [].
Proof.
  unfold generateVideo. destruct (truthy (API_KEY env)); [| reflexivity].
  cbn [negb]. rewrite trace_bind, submits_app.
  rewrite (noSubmit_submits (noSubmit_encodeImage img)). cbn [app].
  destruct (outcome (encodeImage env img (notifying ev)))
    as [payload | e |]; try reflexivity.
  rewrite trace_bind, submits_app.
  rewrite (noSubmit_submits (noSubmit_notifying _)). cbn [app].
  cbn [outcome notifying emit snd].
  rewrite trace_bind. cbn [trace outcome await fst snd app].
  change (submits (?e :: ?t)) with (submits [e] ++ submits t).
  cbn [submits flat_map app]. f_equal.
  destruct (generateVideos env (parameters p payload)) as [e | op];
    [reflexivity |].
  apply noSubmit_submits.
  apply noSubmit_bind; [apply noSubmit_notifying | intros _].
  apply noSubmit_bind; [apply noSubmit_poll_loop | intros operation].
  destruct (negb (truthy (optional_uri operation))); [constructor |].
  apply noSubmit_bind; [apply noSubmit_notifying | intros _].
  apply noSubmit_bind; [now apply noSubmit_await | intros r].
  destruct (negb (ok r)); [constructor |].
  apply noSubmit_bind; [now apply noSubmit_await | intros b].
  apply noSubmit_bind; [apply noSubmit_notifying | intros _].
  now apply noSubmit_await.
Qed.

End Quiet.

(** ** What a trace up to the terminal handle contains *)

Lemma fetches_iterations ev handles :
  (forall m, fetches [ev m] = []) ->
  fetches (flat_map (iteration ev) handles) = [].
Proof.
  intros Hev. induction handles as [| o hs IH]; [reflexivity |].
  cbn [flat_map]. unfold fetches in *. rewrite flat_map_app, IH.
  unfold iteration. cbn [flat_map app].
  specialize (Hev (lit "Checking video generation status...")).
  cbn in Hev. rewrite app_nil_r in Hev. now rewrite Hev.
Qed.

Lemma objectURLs_iterations ev handles :
  (forall m, objectURLs [ev m] = []) ->
  objectURLs (flat_map (iteration ev) handles) = [].
Proof.
  intros Hev. induction handles as [| o hs IH]; [reflexivity |].
  cbn [flat_map]. unfold objectURLs in *. rewrite flat_map_app, IH.
  unfold iteration. cbn [flat_map app].
  specialize (Hev (lit "Checking video generation status...")).
  cbn in Hev. rewrite app_nil_r in Hev. now rewrite Hev.
Qed.

Lemma progress_iterations handles :
  progress (flat_map (iteration Progress) handles) =
  repeat (lit "Checking video generation status...") (length handles).
Proof.
  induction handles as [| o hs IH]; [reflexivity |].
  cbn [flat_map length repeat]. unfold progress in *.
  rewrite flat_map_app, IH. reflexivity.
Qed.

Lemma fetches_upToTerminal enc params pending :
  fetches (upToTerminal Progress enc params pending) = fetches enc.
Proof.
  unfold upToTerminal, fetches. rewrite !flat_map_app.
  fold (fetches (flat_map (iteration Progress) pending)).
  rewrite fetches_iterations by reflexivity. cbn. now rewrite app_nil_r.
Qed.

Lemma objectURLs_upToTerminal enc params pending :
  objectURLs (upToTerminal Progress enc params pending) = objectURLs enc.
Proof.
  unfold upToTerminal, objectURLs. rewrite !flat_map_app.
  fold (objectURLs (flat_map (iteration Progress) pending)).
  rewrite objectURLs_iterations by reflexivity. cbn. now rewrite app_nil_r.
Qed.

Lemma progress_upToTerminal enc params pending :
  progress (upToTerminal Progress enc params pending) =
  progress enc
  ++ [lit "Sending request to AI...";
      lit "AI is warming up... This may take a few minutes."]
  ++ repeat (lit "Checking video generation status...") (length pending).
Proof.
  unfold upToTerminal, progress. rewrite !flat_map_app.
  fold (progress (flat_map (iteration Progress) pending)).
  rewrite progress_iterations. reflexivity.
Qed.

Lemma encodeImage_no_download env img :
  fetches (trace (encodeImage env img (notifying Progress))) = []
  /\ objectURLs (trace (encodeImage env img (notifying Progress))) = [].
Proof. rewrite encodeImage_trace. now destruct img. Qed.

(** ** The claims about the call *)

(** C4: with the credential absent (or empty) the call throws the
    missing-credential error and nothing goes over the network: no
    submission, no status request, no download. *)
Theorem missing_credential_no_network :
  forall env fuel p img onProgress,
    truthy (API_KEY env) = false ->
    outcome (generateVideo env fuel p img onProgress)
    = Threw (Error (lit "API_KEY environment variable not set"))
    /\ filter isNetworkCall (trace (generateVideo env fuel p img onProgress))
       = [].
Proof.
  intros env fuel p img onProgress H.
  rewrite (generateVideo_no_key env fuel p img onProgress H).
  split; reflexivity.
Qed.

Lemma missing_credential_no_network_witness :
  outcome (generateVideo keylessWorld 5 samplePrompt (Some sampleFile) record)
  = Threw (Error (lit "API_KEY environment variable not set"))
  /\ filter isNetworkCall
       (trace (generateVideo keylessWorld 5 samplePrompt (Some sampleFile)
                 record))
     = [].
Proof.
  apply (@missing_credential_no_network keylessWorld 5 samplePrompt
           (Some sampleFile) record).
  reflexivity.
Defined.

(** C9: the credential is checked before anything else: without it the
    call throws with an empty trace whatever the callback would do, so the
    callback is not invoked and, with an image supplied, no "Encoding
    image..." message is emitted and the file is not read. *)
Theorem credential_checked_first :
  forall env fuel p img onProgress,
    truthy (API_KEY env) = false ->
    generateVideo env fuel p img onProgress
    = ([], Threw (Error (lit "API_KEY environment variable not set")))
    /\ progress (trace (generateVideo env fuel p img record)) = []
    /\ fileReads (trace (generateVideo env fuel p img record)) = [].
Proof.
  intros env fuel p img onProgress H.
  rewrite !(generateVideo_no_key env fuel p img _ H).
  repeat split; reflexivity.
Qed.

Lemma credential_checked_first_witness :
  generateVideo keylessWorld 5 samplePrompt (Some sampleFile)
    (fun _ => throw NotAnError)
  = ([], Threw (Error (lit "API_KEY environment variable not set")))
  /\ progress (trace (generateVideo keylessWorld 5 samplePrompt
                        (Some sampleFile) record)) = []
  /\ fileReads (trace (generateVideo keylessWorld 5 samplePrompt
                         (Some sampleFile) record)) = [].
Proof.
  apply (@credential_checked_first keylessWorld 5 samplePrompt
           (Some sampleFile) (fun _ => throw NotAnError)).
  reflexivity.
Defined.

(** C5: when the handle that ends the poll loop has no usable
    [response.generatedVideos[0].video.uri] (a link of the chain is missing,
    or the reference is empty), the call throws the no-URI error and no
    download request is issued. *)
Theorem no_reference_no_download :
  forall env fuel p key img payload op0 opN pending,
    API_KEY env = Some key ->
    key <> [] ->
    outcome (encodeImage env img record) = Returned payload ->
    generateVideos env (parameters p payload) = inr op0 ->
    PollsTo env 0 op0 pending opN ->
    length pending <= fuel ->
    truthy (optional_uri opN) = false ->
    outcome (generateVideo env fuel p img record)
    = Threw (Error (lit "Video generation failed or returned no URI."))
    /\ fetches (trace (generateVideo env fuel p img record)) = [].
Proof.
  intros env fuel p key img payload op0 opN pending
    Hkey Hne Henc Hsub Hpoll Hfuel Hu.
  change record with (notifying Progress).
  rewrite (@generateVideo_no_uri env Progress fuel p key img payload op0
             opN pending Hkey Hne Henc Hsub Hpoll Hfuel Hu).
  split; [reflexivity |]. cbn [trace fst].
  rewrite fetches_upToTerminal. apply encodeImage_no_download.
Qed.

Lemma no_reference_no_download_witness :
  outcome (generateVideo emptyWorld 5 samplePrompt None record)
  = Threw (Error (lit "Video generation failed or returned no URI."))
  /\ fetches (trace (generateVideo emptyWorld 5 samplePrompt None record))
     = [].
Proof.
  apply (@no_reference_no_download emptyWorld 5 samplePrompt sampleKey None
           None pendingOperation failedOperation [pendingOperation]).
  - reflexivity.
  - discriminate.
  - reflexivity.
  - reflexivity.
  - polls_to.
  - cbn. lia.
  - reflexivity.
Defined.

Lemma fetches_app t1 t2 : fetches (t1 ++ t2) = fetches t1 ++ fetches t2.
Proof. apply flat_map_app. Qed.

Lemma objectURLs_app t1 t2 :
  objectURLs (t1 ++ t2) = objectURLs t1 ++ objectURLs t2.
Proof. apply flat_map_app. Qed.

Lemma progress_app t1 t2 : progress (t1 ++ t2) = progress t1 ++ progress t2.
Proof. apply flat_map_app. Qed.

(** C6: when the handle that ends the poll loop carries a reference, the
    call issues exactly one download request, whatever becomes of it, and
    its URL is the reference followed by ["&key="] and the credential. *)
Theorem one_download_request :
  forall env fuel p key img payload op0 opN pending link,
    API_KEY env = Some key ->
    key <> [] ->
    outcome (encodeImage env img record) = Returned payload ->
    generateVideos env (parameters p payload) = inr op0 ->
    PollsTo env 0 op0 pending opN ->
    length pending <= fuel ->
    optional_uri opN = Some link ->
    link <> [] ->
    fetches (trace (generateVideo env fuel p img record))
    = [link ++ lit "&key=" ++ key].
Proof.
  intros env fuel p key img payload op0 opN pending link
    Hkey Hne Henc Hsub Hpoll Hfuel Hu Hl.
  change record with (notifying Progress).
  rewrite (@generateVideo_download env Progress fuel p key img payload op0
             opN pending Hkey Hne Henc Hsub Hpoll Hfuel link Hu Hl).
  cbv zeta.
  assert (E : forall rest,
             fetches ((upToTerminal Progress
                         (trace (encodeImage env img (notifying Progress)))
                         (parameters p payload) pending
                       ++ [Progress (lit "Downloading generated video...");
                           Fetch (link ++ lit "&key=" ++ key)]) ++ rest)
             = (link ++ lit "&key=" ++ key) :: fetches rest).
  { intros rest. rewrite !fetches_app, fetches_upToTerminal.
    now rewrite (proj1 (encodeImage_no_download env img)). }
  destruct (fetch env _) as [e | r]; cbn [trace fst].
  - rewrite <- (app_nil_r (_ ++ _)). apply E.
  - destruct (ok r); [destruct (blob r) as [e | b] |]; cbn [trace fst].
    + apply E.
    + apply E.
    + rewrite <- (app_nil_r (_ ++ _)). apply E.
Qed.

Lemma one_download_request_witness :
  fetches (trace (generateVideo slowWorld 5 samplePrompt (Some sampleFile)
                    record))
  = [sampleLink ++ lit "&key=" ++ sampleKey].
Proof.
  apply (@one_download_request slowWorld 5 samplePrompt sampleKey
           (Some sampleFile)
           (Some {| imageBytes := Some (lit "iVBORw0KGgo=");
                    mimeType := lit "image/png" |})
           pendingOperation (finishedOperation (Some sampleLink))
           [pendingOperation; runningOperation] sampleLink).
  - reflexivity.
  - discriminate.
  - reflexivity.
  - reflexivity.
  - polls_to.
  - cbn. lia.
  - reflexivity.
  - discriminate.
Defined.

(** C7: when the download is answered with a status outside 200-299
    ([ok] is false), the call throws the download error, which carries the
    status text of the answer, and no object URL is created. *)
Theorem refused_download_throws :
  forall env fuel p key img payload op0 opN pending link r,
    API_KEY env = Some key ->
    key <> [] ->
    outcome (encodeImage env img record) = Returned payload ->
    generateVideos env (parameters p payload) = inr op0 ->
    PollsTo env 0 op0 pending opN ->
    length pending <= fuel ->
    optional_uri opN = Some link ->
    link <> [] ->
    fetch env (link ++ lit "&key=" ++ key) = inr r ->
    ok r = false ->
    outcome (generateVideo env fuel p img record)
    = Threw (Error (lit "Failed to download video: " ++ statusText r))
    /\ objectURLs (trace (generateVideo env fuel p img record)) = [].
Proof.
  intros env fuel p key img payload op0 opN pending link r
    Hkey Hne Henc Hsub Hpoll Hfuel Hu Hl Hfetch Hok.
  change record with (notifying Progress).
  rewrite (@generateVideo_download env Progress fuel p key img payload op0
             opN pending Hkey Hne Henc Hsub Hpoll Hfuel link Hu Hl).
  cbv zeta. rewrite Hfetch, Hok. split; [reflexivity |]. cbn [trace fst].
  rewrite objectURLs_app, objectURLs_upToTerminal.
  now rewrite (proj2 (encodeImage_no_download env img)).
Qed.

Lemma refused_download_throws_witness :
  outcome (generateVideo refusedWorld 5 samplePrompt None record)
  = Threw (Error (lit "Failed to download video: " ++ lit "Not Found"))
  /\ objectURLs (trace (generateVideo refusedWorld 5 samplePrompt None
                          record)) = [].
Proof.
  apply (@refused_download_throws refusedWorld 5 samplePrompt sampleKey None
           None pendingOperation (finishedOperation (Some sampleLink))
           [pendingOperation] sampleLink (sampleResponse false "Not Found")).
  - reflexivity.
  - discriminate.
  - reflexivity.
  - reflexivity.
  - polls_to.
  - cbn. lia.
  - reflexivity.
  - discriminate.
  - reflexivity.
  - reflexivity.
Defined.

(** C8 (as the code has it): a run without image that needs [N] status
    requests and whose download succeeds submits once, with [image]
    undefined, reports "Sending request to AI...", then "AI is warming
    up... This may take a few minutes.", then "Checking video generation
    status..." [N] times, then "Downloading generated video...", then
    "Finalizing video...", and returns the object URL made of the
    downloaded body. *)
Theorem successful_run_without_image :
  forall env fuel p key op0 opN pending link r b,
    API_KEY env = Some key ->
    key <> [] ->
    generateVideos env (parameters p None) = inr op0 ->
    PollsTo env 0 op0 pending opN ->
    length pending <= fuel ->
    optional_uri opN = Some link ->
    link <> [] ->
    fetch env (link ++ lit "&key=" ++ key) = inr r ->
    ok r = true ->
    blob r = inr b ->
    submits (trace (generateVideo env fuel p None record))
    = [ {| model := lit "veo-2.0-generate-001";
           prompt := p;
           image := None;
           config := {| numberOfVideos := 1 |} |} ]
    /\ progress (trace (generateVideo env fuel p None record))
       = [lit "Sending request to AI...";
          lit "AI is warming up... This may take a few minutes."]
         ++ repeat (lit "Checking video generation status...")
              (length pending)
         ++ [lit "Downloading generated video...";
             lit "Finalizing video..."]
    /\ outcome (generateVideo env fuel p None record)
       = Returned (createObjectURL env b).
Proof.
  intros env fuel p key op0 opN pending link r b
    Hkey Hne Hsub Hpoll Hfuel Hu Hl Hfetch Hok Hblob.
  change record with (notifying Progress). split.
  - rewrite submits_generateVideo by reflexivity. rewrite Hkey.
    destruct key; [congruence | reflexivity].
  - rewrite (@generateVideo_download env Progress fuel p key None None op0
               opN pending Hkey Hne eq_refl Hsub Hpoll Hfuel link Hu Hl).
    cbv zeta. rewrite Hfetch, Hok, Hblob. split; [| reflexivity].
    cbn [trace fst]. rewrite !progress_app, progress_upToTerminal.
    cbn [encodeImage ret trace fst progress flat_map app].
    rewrite <- !app_assoc. reflexivity.
Qed.

Lemma successful_run_without_image_witness :
  submits (trace (generateVideo slowWorld 5 samplePrompt None record))
  = [ {| model := lit "veo-2.0-generate-001";
         prompt := samplePrompt;
         image := None;
         config := {| numberOfVideos := 1 |} |} ]
  /\ progress (trace (generateVideo slowWorld 5 samplePrompt None record))
     = [lit "Sending request to AI...";
        lit "AI is warming up... This may take a few minutes."]
       ++ repeat (lit "Checking video generation status...") 2
       ++ [lit "Downloading generated video...";
           lit "Finalizing video..."]
  /\ outcome (generateVideo slowWorld 5 samplePrompt None record)
     = Returned (lit "blob:http://localhost/1f0c").
Proof.
  apply (@successful_run_without_image slowWorld 5 samplePrompt sampleKey
           pendingOperation (finishedOperation (Some sampleLink))
           [pendingOperation; runningOperation] sampleLink
           (sampleResponse true "OK") [Byte.x00; Byte.x01]).
  - reflexivity.
  - discriminate.
  - reflexivity.
  - polls_to.
  - cbn. lia.
  - reflexivity.
  - discriminate.
  - reflexivity.
  - reflexivity.
  - reflexivity.
Defined.

(** C8 as stated fails: in a successful run without image and with two
    status requests, the second message is not "AI is warming up...". *)
Lemma warming_up_message_differs :
  outcome (generateVideo slowWorld 5 samplePrompt None record)
  = Returned (lit "blob:http://localhost/1f0c")
  /\ length (polls (trace (generateVideo slowWorld 5 samplePrompt None
                             record))) = 2
  /\ progress (trace (generateVideo slowWorld 5 samplePrompt None record))
     <> [lit "Sending request to AI...";
         lit "AI is warming up..."]
        ++ repeat (lit "Checking video generation status...") 2
        ++ [lit "Downloading generated video...";
            lit "Finalizing video..."].
Proof.
  split; [reflexivity | split; [reflexivity |]].
  vm_compute. discriminate.
Qed.

(** A base64 body has no comma, so a data URL
    ["data:<mime>;base64,<body>"] whose MIME type has none has exactly
    one. *)
Lemma base64_without_comma (body : jsstring) :
  forallb isBase64 body = true ->
  forallb (fun c => negb (c =? 0x2C)%N) body = true.
Proof.
  intros H. rewrite forallb_forall in H |- *.
  intros c Hc. apply isBase64_not_comma, H, Hc.
Qed.




(** ** The submit handler *)

Lemma In_submits params t : In (Submit params) t <-> In params (submits t).
Proof.
  induction t as [| e t IH]; [reflexivity |].
  change (e :: t) with ([e] ++ t) at 2. rewrite submits_app.
  rewrite in_app_iff, <- IH. cbn [In].
  destruct e; cbn; split; intros [H | H]; try discriminate H;
    try contradiction; auto.
  - injection H as ->. auto.
  - destruct H as [-> | []]. auto.
Qed.

Lemma handleSubmit_blank env fuel s :
  forallb isTrimmed (App.prompt s) = true ->
  App.handleSubmit env fuel s =
  ([PreventDefault],
   App.setStatus App.error
     (App.setErrorMessage (lit "Please enter a prompt for your video.") s)).
Proof.
  intros H. apply trim_blank in H. unfold App.handleSubmit. now rewrite H.
Qed.

Lemma handleSubmit_submits env fuel s :
  submits (fst (App.handleSubmit env fuel s)) =
  if forallb isTrimmed (App.prompt s) then []
  else submits (trace (generateVideo env fuel (App.prompt s)
                         (App.imageFile s) App.onProgress)).
Proof.
  destruct (forallb isTrimmed (App.prompt s)) eqn:E.
  - now rewrite (handleSubmit_blank env fuel s E).
  - unfold App.handleSubmit.
    destruct (trim (App.prompt s)) as [| c r] eqn:Et.
    + apply trim_blank in Et. congruence.
    + cbn [App.prompt App.imageFile App.setVideoUrl App.setErrorMessage
             App.setStatus].
      destruct (generateVideo _ _ _ _ _) as [t [url | err |]];
        cbn [fst trace]; try reflexivity.
      change (submits (PreventDefault :: t ++ [ConsoleError err]))
        with (submits (t ++ [ConsoleError err])).
      rewrite submits_app. cbn. now rewrite app_nil_r.
Qed.

Lemma handleSubmit_submits_cases env fuel s :
  submits (fst (App.handleSubmit env fuel s)) =
  if forallb isTrimmed (App.prompt s) then []
  else if truthy (API_KEY env) then
    match outcome (encodeImage env (App.imageFile s) App.onProgress) with
    | Returned payload => [parameters (App.prompt s) payload]
    | _ => []
    end
  else [].
Proof.
  rewrite handleSubmit_submits.
  destruct (forallb isTrimmed (App.prompt s)); [reflexivity |].
  change App.onProgress
    with (notifying (fun m => ConsoleLog (lit "Progress: " ++ m))).
  now rewrite submits_generateVideo.
Qed.

(** C3: a prompt that is empty or made of white space only is refused by
    the handler with the "Please enter a prompt" error, and nothing is
    submitted (the handler does nothing else at all); whenever a request is
    submitted the prompt is not blank and the submission is the only one of
    the run; and a request with a prompt that is not blank, with the
    credential there and the image, if any, readable, is submitted. *)
Theorem blank_prompt_never_submitted :
  forall env fuel s,
    (forallb isTrimmed (App.prompt s) = true ->
     App.handleSubmit env fuel s =
     ([PreventDefault],
      App.setStatus App.error
        (App.setErrorMessage
           (lit "Please enter a prompt for your video.") s)))
    /\ (forall params,
          In (Submit params) (fst (App.handleSubmit env fuel s)) ->
          forallb isTrimmed (App.prompt s) = false
          /\ submits (fst (App.handleSubmit env fuel s)) = [params])
    /\ (forallb isTrimmed (App.prompt s) = false ->
        truthy (API_KEY env) = true ->
        (forall file, App.imageFile s = Some file ->
                      readAsDataURL env file <> None) ->
        exists params,
          submits (fst (App.handleSubmit env fuel s)) = [params]).
Proof.
  intros env fuel s. split; [apply handleSubmit_blank | split].
  - intros params Hin. apply In_submits in Hin.
    rewrite handleSubmit_submits_cases in Hin |- *.
    destruct (forallb isTrimmed (App.prompt s)); [contradiction |].
    split; [reflexivity |].
    destruct (truthy (API_KEY env)); [| contradiction].
    destruct (outcome (encodeImage env (App.imageFile s) App.onProgress))
      as [payload | e |]; try contradiction.
    destruct Hin as [-> | []]. reflexivity.
  - intros Hp Hkey Hread. rewrite handleSubmit_submits_cases, Hp, Hkey.
    change App.onProgress
      with (notifying (fun m => ConsoleLog (lit "Progress: " ++ m))).
    rewrite encodeImage_outcome.
    destruct (App.imageFile s) as [file |]; [| now eexists].
    specialize (Hread file eq_refl).
    destruct (readAsDataURL env file); [now eexists | congruence].
Qed.

Lemma blank_prompt_never_submitted_witness :
  App.handleSubmit slowWorld 5 (sampleState (lit "  ") None) =
  ([PreventDefault],
   App.setStatus App.error
     (App.setErrorMessage (lit "Please enter a prompt for your video.")
        (sampleState (lit "  ") None)))
  /\ submits (fst (App.handleSubmit slowWorld 5
                     (sampleState samplePrompt None)))
     = [parameters samplePrompt None].
Proof.
  split.
  - apply (proj1 (@blank_prompt_never_submitted slowWorld 5
                    (sampleState (lit "  ") None))).
    reflexivity.
  - apply (proj1 (proj2 (@blank_prompt_never_submitted slowWorld 5
                           (sampleState samplePrompt None)))).
    vm_compute. right. right. left. reflexivity.
Defined.

(** The guard is the handler's: called directly, [generateVideo] submits a
    blank prompt like any other. *)
Example generateVideo_submits_blank_prompt :
  submits (trace (generateVideo slowWorld 5 (lit "  ") None record))
  = [parameters (lit "  ") None].
Proof. reflexivity. Qed.

(** * Further properties of the service module *)

(** ** Reading the image *)

Lemma split_first (sep : N) (s : jsstring) :
  hd_error (split sep s) = Some (before sep s).
Proof.
  induction s as [| c s IH]; cbn; [reflexivity |].
  destruct (c =? sep)%N; [reflexivity |].
  destruct (split sep s) as [| w ws]; cbn in *; [discriminate |].
  now injection IH as ->.
Qed.

Lemma split_second_missing (sep : N) (s : jsstring) :
  afterFirst sep s = None -> nth_error (split sep s) 1 = None.
Proof.
  induction s as [| c s IH]; cbn; [reflexivity |].
  destruct (c =? sep)%N; [discriminate |].
  intros H. specialize (IH H).
  destruct (split_cons sep s) as (w & ws & E). rewrite E in IH |- *.
  exact IH.
Qed.

(** The events and the outcome of [fileToBase64], as the code computes
    them. *)
Lemma fileToBase64_events env file :
  fileToBase64 env file =
  ([ReadFile file],
   match readAsDataURL env file with
   | Some result => Returned (nth_error (split 0x2C result) 1)
   | None => Threw NotAnError
   end).
Proof.
  unfold fileToBase64. destruct (readAsDataURL env file) as [result |].
  - now rewrite bind_await_inr.
  - reflexivity.
Qed.

(** X1: [fileToBase64] reads the file once. When the read succeeds, the
    promise resolves with the piece of the data URL between its first and
    its second comma (up to the end when there is no second comma), and with
    [undefined] when the data URL has no comma; when the read fails, it is
    rejected with the reader's event, which is not an [Error]. *)
Theorem fileToBase64_result :
  forall env file,
    fileToBase64 env file =
    ([ReadFile file],
     match readAsDataURL env file with
     | Some result =>
         Returned (option_map (before 0x2C) (afterFirst 0x2C result))
     | None => Threw NotAnError
     end).
Proof.
  intros env file. rewrite fileToBase64_events.
  destruct (readAsDataURL env file) as [result |]; [| reflexivity].
  f_equal. f_equal.
  destruct (afterFirst 0x2C result) as [rest |] eqn:E.
  - rewrite (split_second _ _ E). apply split_first.
  - now apply split_second_missing.
Qed.

(** X2: when the image cannot be read, the call stops right after the
    read: it is rejected with the reader's event, only "Encoding image..."
    was reported, and nothing was submitted. *)
Theorem unreadable_image_aborts :
  forall env fuel p file,
    truthy (API_KEY env) = true ->
    readAsDataURL env file = None ->
    generateVideo env fuel p (Some file) record =
    ([Progress (lit "Encoding image..."); ReadFile file], Threw NotAnError).
Proof.
  intros env fuel p file Hkey Hread. unfold generateVideo. rewrite Hkey.
  cbn [negb encodeImage]. unfold record at 1. rewrite bind_emit.
  rewrite fileToBase64_events, Hread. reflexivity.
Qed.

Lemma unreadable_image_aborts_witness :
  generateVideo stuckWorld 5 samplePrompt (Some sampleFile) record =
  ([Progress (lit "Encoding image..."); ReadFile sampleFile],
   Threw NotAnError).
Proof.
  apply (@unreadable_image_aborts stuckWorld 5 samplePrompt sampleFile);
    reflexivity.
Defined.

(** ** Failures of the service *)

(** X3: when the submission is rejected, the call is rejected with the
    same value right after it: "Sending request to AI..." is the last
    message, there is no status request and no download. *)
Theorem rejected_submission_propagates :
  forall env fuel p img payload e,
    truthy (API_KEY env) = true ->
    outcome (encodeImage env img record) = Returned payload ->
    generateVideos env (parameters p payload) = inl e ->
    generateVideo env fuel p img record =
    (trace (encodeImage env img record)
     ++ [Progress (lit "Sending request to AI...");
         Submit (parameters p payload)],
     Threw e).
Proof.
  intros env fuel p img payload e Hkey Henc Hsub.
  unfold generateVideo. rewrite Hkey. cbn [negb].
  rewrite (run_eta (encodeImage env img record)), Henc, bind_returned.
  unfold record at 2. rewrite bind_emit, Hsub, bind_await_inl.
  reflexivity.
Qed.

Lemma rejected_submission_propagates_witness :
  generateVideo rejectingWorld 5 samplePrompt None record =
  ([Progress (lit "Sending request to AI...");
    Submit (parameters samplePrompt None)],
   Threw (Error (lit "quota exceeded"))).
Proof.
  apply (@rejected_submission_propagates rejectingWorld 5 samplePrompt None
           None (Error (lit "quota exceeded"))); reflexivity.
Defined.

Lemma poll_loop_PollsFail env ev k op pending e :
  PollsFail env k op pending e ->
  forall fuel, length pending <= fuel ->
  poll_loop env (notifying ev) fuel k op =
  (flat_map (iteration ev) pending, Threw e).
Proof.
  induction 1 as [k op e Hd Hget | k op op' pending e Hd Hget _ IH];
    intros fuel Hfuel.
  - destruct fuel as [| fuel]; [cbn in Hfuel; lia |].
    rewrite (poll_loop_step _ _ _ _ _ Hd), Hget. reflexivity.
  - destruct fuel as [| fuel]; [cbn in Hfuel; lia |].
    rewrite (poll_loop_step _ _ _ _ _ Hd), Hget.
    rewrite IH by (cbn in Hfuel; lia). reflexivity.
Qed.

(** Derives [PollsFail] in a concrete world by running the service. *)
Ltac polls_fail :=
  repeat first
    [ apply PollsFail_now; reflexivity
    | eapply PollsFail_later; [reflexivity | reflexivity |] ].

(** X4: when a status request is rejected, the call is rejected with the
    same value; the status was requested for the handles up to that one, and
    there is no download and no object URL. *)
Theorem rejected_status_request_propagates :
  forall env fuel p img payload op0 pending e,
    truthy (API_KEY env) = true ->
    outcome (encodeImage env img record) = Returned payload ->
    generateVideos env (parameters p payload) = inr op0 ->
    PollsFail env 0 op0 pending e ->
    length pending <= fuel ->
    outcome (generateVideo env fuel p img record) = Threw e
    /\ polls (trace (generateVideo env fuel p img record)) = pending
    /\ fetches (trace (generateVideo env fuel p img record)) = []
    /\ objectURLs (trace (generateVideo env fuel p img record)) = [].
Proof.
  intros env fuel p img payload op0 pending e Hkey Henc Hsub Hpoll Hfuel.
  assert (E : generateVideo env fuel p img record =
              (upToTerminal Progress (trace (encodeImage env img record))
                 (parameters p payload) pending, Threw e)).
  { unfold generateVideo. rewrite Hkey. cbn [negb].
    rewrite (run_eta (encodeImage env img record)), Henc, bind_returned.
    change record with (notifying Progress).
    rewrite bind_notifying, Hsub, bind_await_inr, bind_notifying.
    rewrite (poll_loop_PollsFail Progress Hpoll Hfuel).
    cbn [bind trace outcome fst snd]. unfold upToTerminal.
    reflexivity. }
  rewrite E. cbn [trace outcome fst snd]. split; [reflexivity |].
  change record with (notifying Progress).
  rewrite fetches_upToTerminal, objectURLs_upToTerminal.
  destruct (encodeImage_no_download env img) as [-> ->].
  repeat split. unfold upToTerminal, polls. rewrite !flat_map_app.
  fold (polls (flat_map (iteration Progress) pending)).
  rewrite polls_iterations by reflexivity.
  rewrite encodeImage_trace. now destruct img.
Qed.

Lemma rejected_status_request_propagates_witness :
  outcome (generateVideo flakyWorld 5 samplePrompt None record)
  = Threw (Error (lit "deadline exceeded"))
  /\ polls (trace (generateVideo flakyWorld 5 samplePrompt None record))
     = [pendingOperation; runningOperation]
  /\ fetches (trace (generateVideo flakyWorld 5 samplePrompt None record))
     = []
  /\ objectURLs (trace (generateVideo flakyWorld 5 samplePrompt None record))
     = [].
Proof.
  apply (@rejected_status_request_propagates flakyWorld 5 samplePrompt None
           None pendingOperation [pendingOperation; runningOperation]
           (Error (lit "deadline exceeded"))).
  - reflexivity.
  - reflexivity.
  - reflexivity.
  - polls_fail.
  - cbn. lia.
Defined.

(** X5: when the download is answered with an [ok] status but reading its
    body fails, the call is rejected with that failure after
    "Downloading generated video...": "Finalizing video..." is not reported
    and no object URL is created. *)
Theorem unreadable_body_propagates :
  forall env fuel p key img payload op0 opN pending link r e,
    API_KEY env = Some key ->
    key <> [] ->
    outcome (encodeImage env img record) = Returned payload ->
    generateVideos env (parameters p payload) = inr op0 ->
    PollsTo env 0 op0 pending opN ->
    length pending <= fuel ->
    optional_uri opN = Some link ->
    link <> [] ->
    fetch env (link ++ lit "&key=" ++ key) = inr r ->
    ok r = true ->
    blob r = inl e ->
    outcome (generateVideo env fuel p img record) = Threw e
    /\ progress (trace (generateVideo env fuel p img record))
       = match img with
         | Some _ => [lit "Encoding image..."]
         | None => []
         end
         ++ [lit "Sending request to AI...";
             lit "AI is warming up... This may take a few minutes."]
         ++ repeat (lit "Checking video generation status...")
              (length pending)
         ++ [lit "Downloading generated video..."]
    /\ objectURLs (trace (generateVideo env fuel p img record)) = [].
Proof.
  intros env fuel p key img payload op0 opN pending link r e
    Hkey Hne Henc Hsub Hpoll Hfuel Hu Hl Hfetch Hok Hblob.
  change record with (notifying Progress).
  rewrite (@generateVideo_download env Progress fuel p key img payload op0
             opN pending Hkey Hne Henc Hsub Hpoll Hfuel link Hu Hl).
  cbv zeta. rewrite Hfetch, Hok, Hblob. cbn [trace outcome fst snd].
  split; [reflexivity | split].
  - rewrite !progress_app, progress_upToTerminal, encodeImage_trace.
    rewrite <- !app_assoc. now destruct img.
  - rewrite !objectURLs_app, objectURLs_upToTerminal.
    now rewrite (proj2 (encodeImage_no_download env img)).
Qed.

Lemma unreadable_body_propagates_witness :
  outcome (generateVideo truncatedWorld 5 samplePrompt None record)
  = Threw (Error (lit "network error"))
  /\ progress (trace (generateVideo truncatedWorld 5 samplePrompt None
                        record))
     = []
       ++ [lit "Sending request to AI...";
           lit "AI is warming up... This may take a few minutes."]
       ++ repeat (lit "Checking video generation status...") 1
       ++ [lit "Downloading generated video..."]
  /\ objectURLs (trace (generateVideo truncatedWorld 5 samplePrompt None
                          record)) = [].
Proof.
  apply (@unreadable_body_propagates truncatedWorld 5 samplePrompt sampleKey
           None None pendingOperation (finishedOperation (Some sampleLink))
           [pendingOperation] sampleLink
           {| ok := true; statusText := lit "OK";
              blob := inl (Error (lit "network error")) |}
           (Error (lit "network error"))).
  - reflexivity.
  - discriminate.
  - reflexivity.
  - reflexivity.
  - polls_to.
  - cbn. lia.
  - reflexivity.
  - discriminate.
  - reflexivity.
  - reflexivity.
  - reflexivity.
Defined.

(** ** The loop in general *)

Lemma sleeps_iterations ev handles :
  (forall m, sleeps [ev m] = []) ->
  sleeps (flat_map (iteration ev) handles) = repeat 10000%Z (length handles).
Proof.
  intros Hev. induction handles as [| o hs IH]; [reflexivity |].
  cbn [flat_map length repeat]. unfold sleeps in *.
  rewrite flat_map_app, IH. unfold iteration. cbn [flat_map app].
  specialize (Hev (lit "Checking video generation status...")).
  cbn in Hev. rewrite app_nil_r in Hev. now rewrite Hev.
Qed.

Lemma poll_loop_stuck env ev :
  (forall k op, exists op',
      getVideosOperation env k op = inr op' /\ is_done op' = false) ->
  forall fuel k op,
    is_done op = false ->
    exists handles,
      length handles = fuel
      /\ poll_loop env (notifying ev) fuel k op =
         (flat_map (iteration ev) handles, Suspended).
Proof.
  intros Hstuck. induction fuel as [| fuel IH]; intros k op Hd.
  - exists []. cbn. now rewrite Hd.
  - destruct (Hstuck k op) as (op' & Hget & Hd').
    destruct (IH (S k) op' Hd') as (hs & Hlen & E).
    exists (op :: hs). split; [cbn; now rewrite Hlen |].
    rewrite (poll_loop_step _ _ _ _ _ Hd), Hget, E. reflexivity.
Qed.

(** X6: the loop has no bound of its own. With a service that answers
    every status request with a handle that is not done, the call has not
    settled after any number of iterations: after [fuel] of them it has made
    [fuel] status requests, each after a sleep of 10000 ms, and has not
    started a download. *)
Theorem never_done_never_settles :
  forall env p img payload op0,
    truthy (API_KEY env) = true ->
    outcome (encodeImage env img record) = Returned payload ->
    generateVideos env (parameters p payload) = inr op0 ->
    is_done op0 = false ->
    (forall k op, exists op',
        getVideosOperation env k op = inr op' /\ is_done op' = false) ->
    forall fuel,
      outcome (generateVideo env fuel p img record) = Suspended
      /\ length (polls (trace (generateVideo env fuel p img record))) = fuel
      /\ sleeps (trace (generateVideo env fuel p img record))
         = repeat 10000%Z fuel
      /\ fetches (trace (generateVideo env fuel p img record)) = [].
Proof.
  intros env p img payload op0 Hkey Henc Hsub Hd Hstuck fuel.
  destruct (@poll_loop_stuck env Progress Hstuck fuel 0 op0 Hd)
    as (hs & Hlen & Eloop).
  assert (E : generateVideo env fuel p img record =
              (upToTerminal Progress (trace (encodeImage env img record))
                 (parameters p payload) hs, Suspended)).
  { unfold generateVideo. rewrite Hkey. cbn [negb].
    rewrite (run_eta (encodeImage env img record)), Henc, bind_returned.
    change record with (notifying Progress).
    rewrite bind_notifying, Hsub, bind_await_inr, bind_notifying, Eloop.
    reflexivity. }
  rewrite E. cbn [trace outcome fst snd]. split; [reflexivity |].
  change record with (notifying Progress).
  rewrite fetches_upToTerminal.
  rewrite (proj1 (encodeImage_no_download env img)).
  unfold upToTerminal, polls, sleeps. rewrite !flat_map_app.
  fold (polls (flat_map (iteration Progress) hs)).
  fold (sleeps (flat_map (iteration Progress) hs)).
  rewrite polls_iterations, sleeps_iterations by reflexivity.
  rewrite encodeImage_trace.
  destruct img; cbn [flat_map app]; rewrite Hlen; repeat split.
Qed.

Lemma never_done_never_settles_witness :
  outcome (generateVideo stuckWorld 7 samplePrompt None record) = Suspended
  /\ length (polls (trace (generateVideo stuckWorld 7 samplePrompt None
                             record))) = 7
  /\ sleeps (trace (generateVideo stuckWorld 7 samplePrompt None record))
     = repeat 10000%Z 7
  /\ fetches (trace (generateVideo stuckWorld 7 samplePrompt None record))
     = [].
Proof.
  apply (@never_done_never_settles stuckWorld samplePrompt None None
           pendingOperation).
  - reflexivity.
  - reflexivity.
  - reflexivity.
  - reflexivity.
  - intros k op. exists runningOperation. split; reflexivity.
Defined.

Lemma polls_app t1 t2 : polls (t1 ++ t2) = polls t1 ++ polls t2.
Proof. apply flat_map_app. Qed.

(** X7: the handles of the status requests are threaded: the first request
    is for the handle the loop was entered with, each later one is for the
    handle the request before it was answered with, and no request is made
    for a handle that is done. *)
Theorem status_requests_are_threaded :
  forall env fuel k op,
    threaded env k op (polls (trace (poll_loop env record fuel k op))).
Proof.
  intros env fuel. change record with (notifying Progress).
  induction fuel as [| fuel IH]; intros k op.
  - cbn. now destruct (is_done op).
  - destruct (is_done op) eqn:Hd.
    + now rewrite (poll_loop_done _ _ _ _ _ Hd).
    + rewrite (poll_loop_step _ _ _ _ _ Hd).
      destruct (getVideosOperation env k op) as [e | op'] eqn:Hget.
      * cbn. auto.
      * cbn [trace fst]. rewrite polls_app.
        change (polls (iteration Progress op)) with [op]. cbn [app].
        specialize (IH (S k) op').
        cbn [threaded]. repeat split; [exact Hd |].
        destruct (polls (trace (poll_loop env (notifying Progress) fuel
                                  (S k) op'))) as [| h rest] eqn:E;
          [exact I |].
        exists op'. split; [exact Hget | exact IH].
Qed.

(** ** The callback *)

Lemma relabel_bind ev {A B} (m1 m2 : Async A) (k1 k2 : A -> Async B) :
  m1 = (map (relabel ev) (trace m2), outcome m2) ->
  (forall a, k1 a = (map (relabel ev) (trace (k2 a)), outcome (k2 a))) ->
  bind m1 k1 = (map (relabel ev) (trace (bind m2 k2)), outcome (bind m2 k2)).
Proof.
  intros -> Hk. destruct m2 as [t [a | e |]]; cbn; try reflexivity.
  rewrite Hk. destruct (k2 a) as [t' o']. cbn. now rewrite map_app.
Qed.

Lemma relabel_await ev {A} (e : Event) (r : Thrown + A) :
  relabel ev e = e ->
  await e r = (map (relabel ev) (trace (await e r)), outcome (await e r)).
Proof. intros H. cbn. now rewrite H. Qed.

Lemma relabel_notifying ev m :
  notifying ev m =
  (map (relabel ev) (trace (record m)), outcome (record m)).
Proof. reflexivity. Qed.

Lemma relabel_poll_loop env ev fuel :
  forall k op,
    poll_loop env (notifying ev) fuel k op =
    (map (relabel ev) (trace (poll_loop env record fuel k op)),
     outcome (poll_loop env record fuel k op)).
Proof.
  induction fuel as [| fuel IH]; intros k op; cbn [poll_loop];
    destruct (is_done op); try reflexivity.
  apply relabel_bind; [reflexivity | intros _].
  apply relabel_bind; [apply relabel_notifying | intros _].
  apply relabel_bind; [now apply relabel_await | intros op'].
  apply IH.
Qed.

Lemma relabel_encodeImage env ev img :
  encodeImage env img (notifying ev) =
  (map (relabel ev) (trace (encodeImage env img record)),
   outcome (encodeImage env img record)).
Proof.
  destruct img as [file |]; [| reflexivity]. cbn [encodeImage].
  apply relabel_bind; [apply relabel_notifying | intros _].
  apply relabel_bind; [| reflexivity].
  rewrite fileToBase64_events. reflexivity.
Qed.

Lemma generateVideo_relabel :
  forall env ev fuel p img,
    generateVideo env fuel p img (notifying ev) =
    (map (relabel ev) (trace (generateVideo env fuel p img record)),
     outcome (generateVideo env fuel p img record)).
Proof.
  intros env ev fuel p img. unfold generateVideo.
  destruct (negb (truthy (API_KEY env))); [reflexivity |].
  apply relabel_bind; [apply relabel_encodeImage | intros payload].
  apply relabel_bind; [apply relabel_notifying | intros _].
  apply relabel_bind; [now apply relabel_await | intros op0].
  apply relabel_bind; [apply relabel_notifying | intros _].
  apply relabel_bind; [apply relabel_poll_loop | intros opN].
  destruct (negb (truthy (optional_uri opN))); [reflexivity |].
  cbv zeta.
  apply relabel_bind; [apply relabel_notifying | intros _].
  apply relabel_bind; [now apply relabel_await | intros r].
  destruct (negb (ok r)); [reflexivity |].
  apply relabel_bind; [now apply relabel_await | intros b].
  apply relabel_bind; [apply relabel_notifying | intros _].
  now apply relabel_await.
Qed.

(** X8: the callback has no part in the control flow. With a callback that
    leaves the event [ev m] for the message [m], the run is the recorded run
    with every [Progress m] replaced by [ev m]: the same calls in the same
    order, and the same outcome. *)
Theorem callback_only_relabels :
  forall env ev fuel p img,
    outcome (generateVideo env fuel p img (notifying ev))
    = outcome (generateVideo env fuel p img record)
    /\ trace (generateVideo env fuel p img (notifying ev))
       = map (relabel ev) (trace (generateVideo env fuel p img record)).
Proof.
  intros env ev fuel p img. rewrite generateVideo_relabel.
  split; reflexivity.
Qed.

(** ** The order of the calls *)

Lemma Forall_trace_bind {A B} (P : Event -> Prop)
    (m : Async A) (k : A -> Async B) :
  Forall P (trace m) ->
  (forall a, Forall P (trace (k a))) ->
  Forall P (trace (bind m k)).
Proof.
  intros Hm Hk. rewrite trace_bind. apply Forall_app. split; [exact Hm |].
  destruct (outcome m); [apply Hk | constructor | constructor].
Qed.

(** The trace of the loop, from the handles of its status requests. *)
Lemma poll_loop_trace_by_polls env fuel k op :
  trace (poll_loop env record fuel k op) =
  flat_map (iteration Progress)
    (polls (trace (poll_loop env record fuel k op))).
Proof.
  destruct (poll_loop_iterations env Progress fuel k op) as [hs Hhs].
  change (notifying Progress) with record in Hhs.
  rewrite Hhs at 2. rewrite polls_iterations by reflexivity. exact Hhs.
Qed.

Lemma poll_loop_fromCall env fuel k op :
  Forall (fun e => fromCall e = true)
    (trace (poll_loop env record fuel k op)).
Proof.
  destruct (poll_loop_iterations env Progress fuel k op) as [hs Hhs].
  change (notifying Progress) with record in Hhs. rewrite Hhs. clear Hhs.
  induction hs as [| o hs IH]; [constructor |].
  cbn [flat_map]. apply Forall_app. split; [| exact IH].
  repeat constructor.
Qed.

(** The recorded run has no event of the page. *)
Lemma generateVideo_fromCall env fuel p img :
  Forall (fun e => fromCall e = true)
    (trace (generateVideo env fuel p img record)).
Proof.
  unfold generateVideo.
  destruct (negb (truthy (API_KEY env))); [constructor |].
  apply Forall_trace_bind.
  { change record with (notifying Progress). rewrite encodeImage_trace.
    destruct img; repeat constructor. }
  intros payload.
  apply Forall_trace_bind; [repeat constructor | intros _].
  apply Forall_trace_bind; [repeat constructor | intros op0].
  apply Forall_trace_bind; [repeat constructor | intros _].
  apply Forall_trace_bind; [apply poll_loop_fromCall | intros opN].
  destruct (negb (truthy (optional_uri opN))); [constructor |].
  cbv zeta.
  apply Forall_trace_bind; [repeat constructor | intros _].
  apply Forall_trace_bind; [repeat constructor | intros r].
  destruct (negb (ok r)); [constructor |].
  apply Forall_trace_bind; [repeat constructor | intros b].
  apply Forall_trace_bind; [repeat constructor | intros _].
  repeat constructor.
Qed.

Lemma In_progress m t : In m (progress t) <-> In (Progress m) t.
Proof.
  induction t as [| e t IH]; [reflexivity |].
  change (e :: t) with ([e] ++ t) at 1. rewrite progress_app.
  rewrite in_app_iff, IH. cbn [In].
  destruct e; cbn; split; intros [H | H]; try discriminate H;
    try contradiction; auto.
  - destruct H as [-> | []]. auto.
  - injection H as ->. auto.
Qed.

(** X20: the callback is only ever called with one of six fixed messages;
    nothing of the request, of the credential or of what the service
    answers goes into a progress message. *)
Theorem progress_messages_are_fixed :
  forall env fuel p img m,
    In m (progress (trace (generateVideo env fuel p img record))) ->
    In m [lit "Encoding image...";
          lit "Sending request to AI...";
          lit "AI is warming up... This may take a few minutes.";
          lit "Checking video generation status...";
          lit "Downloading generated video...";
          lit "Finalizing video..."].
Proof.
  intros env fuel p img m Hin. apply In_progress in Hin. revert m Hin.
  set (six := [_; _; _; _; _; _]).
  change (forall m, In (Progress m)
                      (trace (generateVideo env fuel p img record)) ->
                    In m six).
  set (P := fun e => forall m, e = Progress m -> In m six).
  assert (Hcall : forall {A} e (r : Thrown + A),
             P e -> Forall P (trace (await e r)))
    by (intros A e r He; constructor; [exact He | constructor]).
  assert (Hnote : forall m, In m six -> Forall P (trace (record m)))
    by (intros m Hm; constructor;
        [intros m' [= <-]; exact Hm | constructor]).
  assert (Hother : forall e, (forall m, e <> Progress m) -> P e)
    by (intros e He m Hm; now contradiction (He m)).
  enough (Hall : Forall P (trace (generateVideo env fuel p img record))).
  { intros m Hin. rewrite Forall_forall in Hall.
    now apply (Hall _ Hin). }
  unfold generateVideo.
  destruct (negb (truthy (API_KEY env))); [constructor |].
  apply Forall_trace_bind.
  { destruct img as [file |]; [| constructor]. cbn [encodeImage].
    apply Forall_trace_bind; [apply Hnote; cbn; tauto | intros _].
    apply Forall_trace_bind; [| constructor].
    rewrite fileToBase64_events. cbn [trace fst].
    constructor; [now apply Hother | constructor]. }
  intros payload.
  apply Forall_trace_bind; [apply Hnote; cbn; tauto | intros _].
  apply Forall_trace_bind; [now apply Hcall, Hother | intros op0].
  apply Forall_trace_bind; [apply Hnote; cbn; tauto | intros _].
  apply Forall_trace_bind.
  { rewrite poll_loop_trace_by_polls.
    induction (polls (trace (poll_loop env record fuel 0 op0)))
      as [| o hs IH]; [constructor |].
    cbn [flat_map]. apply Forall_app. split; [| exact IH].
    unfold iteration.
    apply Forall_cons; [now apply Hother |].
    apply Forall_cons; [intros m' [= <-]; cbn; tauto |].
    apply Forall_cons; [now apply Hother | constructor]. }
  intros opN.
  destruct (negb (truthy (optional_uri opN))); [constructor |].
  cbv zeta.
  apply Forall_trace_bind; [apply Hnote; cbn; tauto | intros _].
  apply Forall_trace_bind; [now apply Hcall, Hother | intros r].
  destruct (negb (ok r)); [constructor |].
  apply Forall_trace_bind; [now apply Hcall, Hother | intros b].
  apply Forall_trace_bind; [apply Hnote; cbn; tauto | intros _].
  now apply Hcall, Hother.
Qed.

Lemma progress_messages_are_fixed_witness :
  In (lit "Checking video generation status...")
    [lit "Encoding image...";
     lit "Sending request to AI...";
     lit "AI is warming up... This may take a few minutes.";
     lit "Checking video generation status...";
     lit "Downloading generated video...";
     lit "Finalizing video..."].
Proof.
  apply (@progress_messages_are_fixed slowWorld 5 samplePrompt None
           (lit "Checking video generation status...")).
  vm_compute. tauto.
Defined.

Lemma networkCalls_app t1 t2 :
  networkCalls (t1 ++ t2) = networkCalls t1 ++ networkCalls t2.
Proof. apply flat_map_app. Qed.

Lemma networkCalls_iterations ev handles :
  (forall m, networkCalls [ev m] = []) ->
  networkCalls (flat_map (iteration ev) handles)
  = repeat PollCall (length handles).
Proof.
  intros Hev. induction handles as [| o hs IH]; [reflexivity |].
  cbn [flat_map length repeat]. rewrite networkCalls_app, IH.
  unfold iteration, networkCalls. cbn [flat_map app].
  specialize (Hev (lit "Checking video generation status...")).
  unfold networkCalls in Hev. cbn in Hev. rewrite app_nil_r in Hev.
  now rewrite Hev.
Qed.

Lemma calls_cons (c : Call) (l full : list Call) :
  (exists rest, l ++ rest = full) ->
  exists rest, (c :: l) ++ rest = c :: full.
Proof. intros [rest <-]. now exists rest. Qed.

(** The calls of [m], a fixed list, followed by a beginning of [full] when
    the continuation only makes a beginning of [full]. *)
Lemma networkCalls_bind {A B} (m : Async A) (k : A -> Async B) full :
  (forall a, exists rest, networkCalls (trace (k a)) ++ rest = full) ->
  exists rest,
    networkCalls (trace (bind m k)) ++ rest
    = networkCalls (trace m) ++ full.
Proof.
  intros Hk. rewrite trace_bind, networkCalls_app.
  destruct (outcome m) as [a | e |].
  - destruct (Hk a) as [rest <-]. exists rest. now rewrite app_assoc.
  - exists full. now rewrite app_nil_r.
  - exists full. now rewrite app_nil_r.
Qed.

(** X9: whatever the environment does, the network calls of a call are a
    beginning of: one submission, then status requests, then one download
    request, then one read of its body. So there is no status request
    before the submission, no download before the last status request, and
    never a second submission or a second download. *)
Theorem network_calls_in_order :
  forall env fuel p img,
    exists n rest,
      networkCalls (trace (generateVideo env fuel p img record)) ++ rest
      = SubmitCall :: repeat PollCall n ++ [FetchCall; BodyCall].
Proof.
  intros env fuel p img. unfold generateVideo.
  destruct (negb (truthy (API_KEY env))).
  { exists 0. eexists. reflexivity. }
  rewrite trace_bind, networkCalls_app.
  replace (networkCalls (trace (encodeImage env img record))) with (@nil Call)
    by (change record with (notifying Progress); rewrite encodeImage_trace;
        now destruct img).
  cbn [app].
  destruct (outcome (encodeImage env img record)) as [payload | e |];
    try (exists 0; eexists; reflexivity).
  unfold record at 1. rewrite bind_emit. cbn [trace fst].
  change (networkCalls (Progress ?m :: ?t)) with (networkCalls t).
  destruct (generateVideos env (parameters p payload)) as [e | op0].
  { rewrite bind_await_inl. exists 0. eexists. reflexivity. }
  rewrite bind_await_inr. unfold record at 1. rewrite bind_emit.
  cbn [trace fst].
  change (networkCalls (Submit ?x :: Progress ?m :: ?t))
    with (SubmitCall :: networkCalls t).
  exists (length (polls (trace (poll_loop env record fuel 0 op0)))).
  apply calls_cons.
  replace (repeat PollCall
             (length (polls (trace (poll_loop env record fuel 0 op0)))))
    with (networkCalls (trace (poll_loop env record fuel 0 op0))).
  2:{ rewrite poll_loop_trace_by_polls at 1.
      now rewrite networkCalls_iterations. }
  apply networkCalls_bind. intros opN.
  destruct (negb (truthy (optional_uri opN))); [eexists; reflexivity |].
  cbv zeta. unfold record at 1. rewrite bind_emit. cbn [trace fst].
  change (networkCalls (Progress ?m :: ?t)) with (networkCalls t).
  apply (networkCalls_bind (await (Fetch _) _) _ (full := [BodyCall])).
  intros r. destruct (negb (ok r)); [eexists; reflexivity |].
  rewrite <- (app_nil_r [BodyCall]).
  apply (networkCalls_bind (await (ReadBody r) _) _ (full := [])).
  intros b. exists []. unfold record. rewrite bind_emit. reflexivity.
Qed.

(** ** Success *)

(** X10: the events of a successful run, in order: with an image,
    "Encoding image..." and the read of the file; "Sending request to
    AI...", the submission, the warming-up message; per status request the
    sleep, the checking message and the request; "Downloading generated
    video...", the download, the read of its body, "Finalizing video...",
    and the creation of the object URL, which is returned. *)
Theorem successful_run_events :
  forall env fuel p key img payload op0 opN pending link r b,
    API_KEY env = Some key ->
    key <> [] ->
    outcome (encodeImage env img record) = Returned payload ->
    generateVideos env (parameters p payload) = inr op0 ->
    PollsTo env 0 op0 pending opN ->
    length pending <= fuel ->
    optional_uri opN = Some link ->
    link <> [] ->
    fetch env (link ++ lit "&key=" ++ key) = inr r ->
    ok r = true ->
    blob r = inr b ->
    generateVideo env fuel p img record =
    (match img with
     | Some file => [Progress (lit "Encoding image..."); ReadFile file]
     | None => []
     end
     ++ [Progress (lit "Sending request to AI...");
         Submit (parameters p payload);
         Progress (lit "AI is warming up... This may take a few minutes.")]
     ++ flat_map
          (fun o => [Sleep 10000;
                     Progress (lit "Checking video generation status...");
                     Poll o])
          pending
     ++ [Progress (lit "Downloading generated video...");
         Fetch (link ++ lit "&key=" ++ key);
         ReadBody r;
         Progress (lit "Finalizing video...");
         CreateObjectURL b],
     Returned (createObjectURL env b)).
Proof.
  intros env fuel p key img payload op0 opN pending link r b
    Hkey Hne Henc Hsub Hpoll Hfuel Hu Hl Hfetch Hok Hblob.
  change record with (notifying Progress).
  rewrite (@generateVideo_download env Progress fuel p key img payload op0
             opN pending Hkey Hne Henc Hsub Hpoll Hfuel link Hu Hl).
  cbv zeta. rewrite Hfetch, Hok, Hblob. f_equal.
  unfold upToTerminal. rewrite encodeImage_trace.
  rewrite <- !app_assoc. reflexivity.
Qed.

Lemma successful_run_events_witness :
  generateVideo slowWorld 5 samplePrompt (Some sampleFile) record =
  ([Progress (lit "Encoding image..."); ReadFile sampleFile]
   ++ [Progress (lit "Sending request to AI...");
       Submit (parameters samplePrompt
                 (Some {| imageBytes := Some (lit "iVBORw0KGgo=");
                          mimeType := lit "image/png" |}));
       Progress (lit "AI is warming up... This may take a few minutes.")]
   ++ flat_map
        (fun o => [Sleep 10000;
                   Progress (lit "Checking video generation status...");
                   Poll o])
        [pendingOperation; runningOperation]
   ++ [Progress (lit "Downloading generated video...");
       Fetch (sampleLink ++ lit "&key=" ++ sampleKey);
       ReadBody (sampleResponse true "OK");
       Progress (lit "Finalizing video...");
       CreateObjectURL [Byte.x00; Byte.x01]],
   Returned (lit "blob:http://localhost/1f0c")).
Proof.
  apply (@successful_run_events slowWorld 5 samplePrompt sampleKey
           (Some sampleFile)
           (Some {| imageBytes := Some (lit "iVBORw0KGgo=");
                    mimeType := lit "image/png" |})
           pendingOperation (finishedOperation (Some sampleLink))
           [pendingOperation; runningOperation] sampleLink
           (sampleResponse true "OK") [Byte.x00; Byte.x01]).
  - reflexivity.
  - discriminate.
  - reflexivity.
  - reflexivity.
  - polls_to.
  - cbn. lia.
  - reflexivity.
  - discriminate.
  - reflexivity.
  - reflexivity.
  - reflexivity.
Defined.

(** A loop that is left normally has followed the service to the first
    handle that is done. *)
Lemma poll_loop_returned_PollsTo env ev fuel :
  forall k op opN,
    outcome (poll_loop env (notifying ev) fuel k op) = Returned opN ->
    exists pending, PollsTo env k op pending opN /\ length pending <= fuel.
Proof.
  induction fuel as [| fuel IH]; intros k op opN H.
  - cbn in H. destruct (is_done op) eqn:Hd; [| discriminate].
    injection H as <-. exists []. split; [now constructor | cbn; lia].
  - destruct (is_done op) eqn:Hd.
    + rewrite (poll_loop_done _ _ _ _ _ Hd) in H. injection H as <-.
      exists []. split; [now constructor | cbn; lia].
    + rewrite (poll_loop_step _ _ _ _ _ Hd) in H.
      destruct (getVideosOperation env k op) as [e | op'] eqn:Hget;
        [discriminate |].
      destruct (IH (S k) op' opN H) as (pending & Hp & Hlen).
      exists (op :: pending). split; [| cbn; lia].
      now apply PollsTo_step with (op' := op').
Qed.

(** X11: a call returns only after the whole pipeline succeeded: the
    credential is there, the image block succeeded, the submission was
    accepted, the service led to a handle that is done and carries a
    reference, the download of that reference with the credential was
    answered [ok], and its body was read; the value returned is the object
    URL of that body. *)
Theorem returned_only_after_download :
  forall env fuel p img url,
    outcome (generateVideo env fuel p img record) = Returned url ->
    exists key payload op0 pending opN link r b,
      API_KEY env = Some key
      /\ key <> []
      /\ outcome (encodeImage env img record) = Returned payload
      /\ generateVideos env (parameters p payload) = inr op0
      /\ PollsTo env 0 op0 pending opN
      /\ length pending <= fuel
      /\ optional_uri opN = Some link
      /\ link <> []
      /\ fetch env (link ++ lit "&key=" ++ key) = inr r
      /\ ok r = true
      /\ blob r = inr b
      /\ url = createObjectURL env b.
Proof.
  intros env fuel p img url H. unfold generateVideo in H.
  destruct (API_KEY env) as [[| c key'] |] eqn:Hkey;
    cbn [truthy negb] in H; try discriminate H.
  rewrite outcome_bind in H.
  destruct (outcome (encodeImage env img record)) as [payload | e |] eqn:Henc;
    try discriminate H.
  unfold record at 1 in H. rewrite bind_emit in H. cbn [outcome snd] in H.
  destruct (generateVideos env (parameters p payload)) as [e | op0] eqn:Hsub;
    [discriminate H |].
  rewrite bind_await_inr in H. cbn [outcome snd] in H.
  unfold record at 1 in H. rewrite bind_emit in H. cbn [outcome snd] in H.
  rewrite outcome_bind in H.
  destruct (outcome (poll_loop env record fuel 0 op0)) as [opN | e |] eqn:Hloop;
    try discriminate H.
  destruct (poll_loop_returned_PollsTo env Progress fuel 0 op0 Hloop)
    as (pending & Hpoll & Hlen).
  destruct (optional_uri opN) as [[| d link'] |] eqn:Hu;
    cbn [truthy negb] in H; try discriminate H.
  cbv zeta in H. cbn [interpolate] in H.
  unfold record at 1 in H. rewrite bind_emit in H. cbn [outcome snd] in H.
  destruct (fetch env _) as [e | r] eqn:Hfetch; [discriminate H |].
  rewrite bind_await_inr in H. cbn [outcome snd] in H.
  destruct (ok r) eqn:Hok; cbn [negb] in H; [| discriminate H].
  destruct (blob r) as [e | b] eqn:Hblob; [discriminate H |].
  rewrite bind_await_inr in H. cbn [outcome snd] in H.
  unfold record in H. rewrite bind_emit in H. cbn in H.
  injection H as <-.
  exists (c :: key'), payload, op0, pending, opN, (d :: link'), r, b.
  repeat split; try assumption; try reflexivity; discriminate.
Qed.

Lemma returned_only_after_download_witness :
  exists key payload op0 pending opN link r b,
    API_KEY slowWorld = Some key
    /\ key <> []
    /\ outcome (encodeImage slowWorld None record) = Returned payload
    /\ generateVideos slowWorld (parameters samplePrompt payload) = inr op0
    /\ PollsTo slowWorld 0 op0 pending opN
    /\ length pending <= 5
    /\ optional_uri opN = Some link
    /\ link <> []
    /\ fetch slowWorld (link ++ lit "&key=" ++ key) = inr r
    /\ ok r = true
    /\ blob r = inr b
    /\ lit "blob:http://localhost/1f0c" = createObjectURL slowWorld b.
Proof.
  apply (@returned_only_after_download slowWorld 5 samplePrompt None
           (lit "blob:http://localhost/1f0c")).
  reflexivity.
Defined.

(** * Further properties of the page *)

(** ** The submit handler and the call *)

Lemma handleSubmit_run :
  forall env fuel s,
    forallb isTrimmed (App.prompt s) = false ->
    App.handleSubmit env fuel s =
    match generateVideo env fuel (App.prompt s) (App.imageFile s) record with
    | (t, Returned url) =>
        (PreventDefault :: map (relabel App.logged) t,
         {| App.prompt := App.prompt s;
            App.imageFile := App.imageFile s;
            App.status := App.success;
            App.errorMessage := [];
            App.videoUrl := Some url |})
    | (t, Threw err) =>
        (PreventDefault :: map (relabel App.logged) t ++ [ConsoleError err],
         {| App.prompt := App.prompt s;
            App.imageFile := App.imageFile s;
            App.status := App.error;
            App.errorMessage :=
              lit "Failed to generate video: " ++ App.messageOf err;
            App.videoUrl := None |})
    | (t, Suspended) =>
        (PreventDefault :: map (relabel App.logged) t,
         {| App.prompt := App.prompt s;
            App.imageFile := App.imageFile s;
            App.status := App.loading;
            App.errorMessage := [];
            App.videoUrl := None |})
    end.
Proof.
  intros env fuel s Hp. unfold App.handleSubmit.
  destruct (trim (App.prompt s)) as [| c r] eqn:Et.
  { apply trim_blank in Et. congruence. }
  change App.onProgress with (notifying App.logged).
  rewrite generateVideo_relabel.
  destruct (generateVideo env fuel (App.prompt s) (App.imageFile s) record)
    as [t [url | err |]]; reflexivity.
Qed.

(** X12: what a submit does. For a blank prompt: [preventDefault], and
    the page is left in [error] with "Please enter a prompt for your video.".
    Otherwise the events of the handler are [preventDefault], then the
    events of the call with each progress message logged as "Progress: "
    followed by the message, then [console.error] of the thrown value when
    the call threw; the page is left in [success] with the returned URL, or
    in [error] with "Failed to generate video: " followed by the message of
    the error (by "An unknown error occurred." for a value that is not an
    [Error]) and without video, or still in [loading]; prompt and image are
    kept, and an earlier error message or video URL does not survive. *)
Theorem handleSubmit_follows_the_call :
  forall env fuel s,
    App.handleSubmit env fuel s =
    if forallb isTrimmed (App.prompt s) then
      ([PreventDefault],
       {| App.prompt := App.prompt s;
          App.imageFile := App.imageFile s;
          App.status := App.error;
          App.errorMessage := lit "Please enter a prompt for your video.";
          App.videoUrl := App.videoUrl s |})
    else
      match
        generateVideo env fuel (App.prompt s) (App.imageFile s) record
      with
      | (t, Returned url) =>
          (PreventDefault :: map (relabel App.logged) t,
           {| App.prompt := App.prompt s;
              App.imageFile := App.imageFile s;
              App.status := App.success;
              App.errorMessage := [];
              App.videoUrl := Some url |})
      | (t, Threw err) =>
          (PreventDefault :: map (relabel App.logged) t
           ++ [ConsoleError err],
           {| App.prompt := App.prompt s;
              App.imageFile := App.imageFile s;
              App.status := App.error;
              App.errorMessage :=
                lit "Failed to generate video: " ++ App.messageOf err;
              App.videoUrl := None |})
      | (t, Suspended) =>
          (PreventDefault :: map (relabel App.logged) t,
           {| App.prompt := App.prompt s;
              App.imageFile := App.imageFile s;
              App.status := App.loading;
              App.errorMessage := [];
              App.videoUrl := None |})
      end.
Proof.
  intros env fuel s.
  destruct (forallb isTrimmed (App.prompt s)) eqn:Hp.
  - rewrite (handleSubmit_blank env fuel s Hp). reflexivity.
  - apply handleSubmit_run. exact Hp.
Qed.

(** A refused download, as the page shows it. *)
Example handleSubmit_refused_download :
  App.handleSubmit refusedWorld 5 (sampleState samplePrompt None) =
  ([PreventDefault;
    ConsoleLog (lit "Progress: Sending request to AI...");
    Submit (parameters samplePrompt None);
    ConsoleLog
      (lit "Progress: AI is warming up... This may take a few minutes.");
    Sleep 10000;
    ConsoleLog (lit "Progress: Checking video generation status...");
    Poll pendingOperation;
    ConsoleLog (lit "Progress: Downloading generated video...");
    Fetch (sampleLink ++ lit "&key=" ++ sampleKey);
    ConsoleError (Error (lit "Failed to download video: Not Found"))],
   {| App.prompt := samplePrompt;
      App.imageFile := None;
      App.status := App.error;
      App.errorMessage :=
        lit "Failed to generate video: Failed to download video: Not Found";
      App.videoUrl := None |}).
Proof. reflexivity. Qed.

Lemma consoleLogs_app t1 t2 :
  consoleLogs (t1 ++ t2) = consoleLogs t1 ++ consoleLogs t2.
Proof. apply flat_map_app. Qed.

Lemma consoleLogs_relabel t :
  Forall (fun e => fromCall e = true) t ->
  consoleLogs (map (relabel App.logged) t)
  = map (app (lit "Progress: ")) (progress t).
Proof.
  induction 1 as [| e t He _ IH]; [reflexivity |].
  change (e :: t) with ([e] ++ t).
  rewrite map_app, consoleLogs_app, progress_app, map_app, IH. f_equal.
  destruct e; try reflexivity; discriminate He.
Qed.

(** X13: what the handler logs to the console is, in the order of the
    call, each progress message of the call with "Progress: " before it, and
    nothing else; nothing is logged for a blank prompt. *)
Theorem console_shows_the_progress :
  forall env fuel s,
    consoleLogs (fst (App.handleSubmit env fuel s)) =
    if forallb isTrimmed (App.prompt s) then []
    else map (app (lit "Progress: "))
           (progress (trace (generateVideo env fuel (App.prompt s)
                               (App.imageFile s) record))).
Proof.
  intros env fuel s.
  destruct (forallb isTrimmed (App.prompt s)) eqn:Hp.
  - now rewrite (handleSubmit_blank env fuel s Hp).
  - rewrite (handleSubmit_run env fuel s Hp).
    pose proof (generateVideo_fromCall env fuel (App.prompt s)
                  (App.imageFile s)) as Hall.
    destruct (generateVideo env fuel (App.prompt s) (App.imageFile s) record)
      as [t [url | err |]]; cbn [fst trace] in *;
      change (consoleLogs (PreventDefault :: ?l)) with (consoleLogs l);
      rewrite ?consoleLogs_app, (consoleLogs_relabel Hall);
      cbn; now rewrite ?app_nil_r.
Qed.

(** X14: a submit without the credential ends in the error panel with
    "Failed to generate video: API_KEY environment variable not set"; the
    error is written to the console and nothing else happens. *)
Theorem missing_credential_on_the_page :
  forall env fuel s,
    forallb isTrimmed (App.prompt s) = false ->
    truthy (API_KEY env) = false ->
    App.handleSubmit env fuel s =
    ([PreventDefault;
      ConsoleError (Error (lit "API_KEY environment variable not set"))],
     {| App.prompt := App.prompt s;
        App.imageFile := App.imageFile s;
        App.status := App.error;
        App.errorMessage :=
          lit "Failed to generate video: "
          ++ lit "API_KEY environment variable not set";
        App.videoUrl := None |}).
Proof.
  intros env fuel s Hp Hkey.
  rewrite (handleSubmit_run env fuel s Hp).
  now rewrite (generateVideo_no_key env fuel _ _ record Hkey).
Qed.

Lemma missing_credential_on_the_page_witness :
  App.handleSubmit keylessWorld 5 (sampleState samplePrompt None) =
  ([PreventDefault;
    ConsoleError (Error (lit "API_KEY environment variable not set"))],
   {| App.prompt := samplePrompt;
      App.imageFile := None;
      App.status := App.error;
      App.errorMessage :=
        lit "Failed to generate video: "
        ++ lit "API_KEY environment variable not set";
      App.videoUrl := None |}).
Proof.
  apply (@missing_credential_on_the_page keylessWorld 5
           (sampleState samplePrompt None)); reflexivity.
Defined.

(** X15: a submit with an image that cannot be read ends in the error
    panel with "Failed to generate video: An unknown error occurred.",
    because the value the reader rejects with is not an [Error]; nothing is
    submitted. *)
Theorem unreadable_image_on_the_page :
  forall env fuel s file,
    forallb isTrimmed (App.prompt s) = false ->
    truthy (API_KEY env) = true ->
    App.imageFile s = Some file ->
    readAsDataURL env file = None ->
    App.handleSubmit env fuel s =
    ([PreventDefault;
      ConsoleLog (lit "Progress: " ++ lit "Encoding image...");
      ReadFile file;
      ConsoleError NotAnError],
     {| App.prompt := App.prompt s;
        App.imageFile := Some file;
        App.status := App.error;
        App.errorMessage :=
          lit "Failed to generate video: "
          ++ lit "An unknown error occurred.";
        App.videoUrl := None |}).
Proof.
  intros env fuel s file Hp Hkey Himg Hread.
  rewrite (handleSubmit_run env fuel s Hp), Himg.
  unfold generateVideo. rewrite Hkey. cbn [negb encodeImage].
  unfold record at 1. rewrite bind_emit, fileToBase64_events, Hread.
  reflexivity.
Qed.

Lemma unreadable_image_on_the_page_witness :
  App.handleSubmit stuckWorld 5 (sampleState samplePrompt (Some sampleFile)) =
  ([PreventDefault;
    ConsoleLog (lit "Progress: " ++ lit "Encoding image...");
    ReadFile sampleFile;
    ConsoleError NotAnError],
   {| App.prompt := samplePrompt;
      App.imageFile := Some sampleFile;
      App.status := App.error;
      App.errorMessage :=
        lit "Failed to generate video: " ++ lit "An unknown error occurred.";
      App.videoUrl := None |}).
Proof.
  apply (@unreadable_image_on_the_page stuckWorld 5
           (sampleState samplePrompt (Some sampleFile)) sampleFile);
    reflexivity.
Defined.

(** ** The panels *)

Ltac page_invariant :=
  unfold pageInvariant;
  cbn [App.videoUrl App.status App.errorMessage App.setPrompt
         App.setImageFile App.setStatus App.setErrorMessage App.setVideoUrl
         App.handleReset App.handleRemoveImage App.initial snd];
  intuition (try discriminate; try congruence).

Lemma pageInvariant_no_video s :
  pageInvariant s -> App.status s <> App.success -> App.videoUrl s = None.
Proof.
  intros (Hv & _) Hs. destruct (App.videoUrl s) as [u |]; [| reflexivity].
  exfalso. apply Hs, Hv. discriminate.
Qed.

Lemma pageInvariant_act s a : pageInvariant s -> pageInvariant (App.act s a).
Proof.
  intros Hinv. unfold App.act, App.renderContent.
  destruct (App.status s) eqn:Hs; destruct a; try exact Hinv.
  - (* the file input; the text area and the remove button leave the
       cells of the invariant alone *)
    unfold App.handleImageChange.
    destruct files as [[| file rest] |]; exact Hinv.
  - (* the submit button *)
    assert (Hnone : App.videoUrl s = None)
      by (apply pageInvariant_no_video; [exact Hinv | congruence]).
    destruct (forallb isTrimmed (App.prompt s)) eqn:Hp.
    + rewrite (handleSubmit_blank env fuel s Hp).
      unfold pageInvariant. cbn. rewrite Hnone.
      intuition (try discriminate; try congruence).
    + rewrite (handleSubmit_run env fuel s Hp).
      destruct (generateVideo env fuel (App.prompt s) (App.imageFile s)
                  record) as [t [url | err |]]; page_invariant.
  - (* Create Another Video *)
    page_invariant.
  - (* Try Again *)
    assert (Hnone : App.videoUrl s = None)
      by (apply pageInvariant_no_video; [exact Hinv | congruence]).
    unfold pageInvariant. cbn. rewrite Hnone.
    intuition (try discriminate; try congruence).
Qed.

(** X16: whatever the user does with the controls the panels offer, from
    the first render on: a video URL is held exactly when the success panel
    is shown, the error panel always has a message to show, and the success
    and loading panels never hold an error message. *)
Theorem panels_and_cells_agree :
  forall actions,
    let s := fold_left App.act actions App.initial in
    (App.videoUrl s <> None <-> App.renderContent s = App.VideoReady)
    /\ (App.renderContent s = App.SomethingWentWrong ->
        App.errorMessage s <> [])
    /\ (App.renderContent s = App.VideoReady
        \/ App.renderContent s = App.LoadingIndicator ->
        App.errorMessage s = []).
Proof.
  intros actions s.
  assert (H : pageInvariant s).
  { subst s. induction actions as [| a actions IH] using rev_ind.
    - page_invariant.
    - rewrite fold_left_app. cbn [fold_left]. now apply pageInvariant_act. }
  destruct H as (Hv & He & Hm). unfold App.renderContent.
  destruct (App.status s) eqn:Hs;
    intuition (try discriminate; try congruence).
Qed.

(** ** The loading messages *)

Lemma rotationInvariant_render r status :
  rotationInvariant r -> rotationInvariant (App.happen r (App.Render status)).
Proof.
  intros Hinv. unfold App.happen.
  destruct (App.sameStatus status (App.rendered r)) eqn:Hsame;
    [exact Hinv |].
  destruct r as [rend msg ref ints next]. destruct Hinv as [Hn Hr].
  cbn [App.rendered App.nextHandle App.intervals
         App.loadingMessageIntervalRef App.loadingMessage] in *.
  assert (Hz : forall id, id <> 0%N -> (id =? 0)%N = false)
    by (intros id; apply N.eqb_neq).
  destruct rend.
  4: destruct Hr as [-> ->].
  3: destruct Hr as [-> ->].
  2: destruct Hr as (id & i & Hid & -> & -> & _); specialize (Hz id Hid).
  1: destruct Hr as [-> ->].
  all: destruct status; try discriminate Hsame.
  all: unfold App.loadingCleanup, App.loadingEffect, rotationInvariant.
  all: repeat (cbn [negb App.rendered App.nextHandle App.intervals
                      App.truthyRef App.loadingMessageIntervalRef
                      App.loadingMessage App.clearInterval filter fst];
               rewrite ?Hz, ?N.eqb_refl).
  all: split; [lia |]; try (split; reflexivity).
  all: exists next, 0; repeat split; try reflexivity; cbn; lia.
Qed.

Lemma rotationInvariant_fire r id :
  rotationInvariant r -> rotationInvariant (App.happen r (App.Fire id)).
Proof.
  intros Hinv. cbn [App.happen]. unfold App.tick.
  destruct r as [rend msg ref ints next]. destruct Hinv as [Hn Hr].
  cbn [App.rendered App.nextHandle App.intervals
         App.loadingMessageIntervalRef App.loadingMessage] in *.
  destruct rend.
  1, 3, 4: destruct Hr as [-> ->]; now split.
  destruct Hr as (h & i & Hh & -> & -> & Hi & ->).
  cbn [find fst]. destruct (h =? id)%N eqn:E.
  - apply N.eqb_eq in E. subst h.
    split; [exact Hn |].
    cbn [App.rendered App.intervals App.loadingMessageIntervalRef
           App.loadingMessage map fst].
    rewrite N.eqb_refl.
    exists id, ((i + 1) mod length App.LOADING_MESSAGES).
    repeat split; try assumption.
    apply Nat.mod_upper_bound. discriminate.
  - split; [exact Hn |]. exists h, i. now repeat split.
Qed.

Lemma rotationInvariant_mounted : rotationInvariant App.mounted.
Proof. split; [cbn; lia | now split]. Qed.

Lemma rotationInvariant_happen happenings :
  rotationInvariant (fold_left App.happen happenings App.mounted).
Proof.
  induction happenings as [| h hs IH] using rev_ind.
  - apply rotationInvariant_mounted.
  - rewrite fold_left_app. cbn [fold_left].
    destruct h; [now apply rotationInvariant_render
                | now apply rotationInvariant_fire].
Qed.

(** X17: through any sequence of renders and timer callbacks after the
    first render, the message interval is live exactly while the loading
    panel is rendered: then there is one live interval, the one the ref
    holds, and the message shown is one of [LOADING_MESSAGES]; otherwise
    there is no live interval and the ref is [null]. Unmounting leaves no
    interval behind. *)
Theorem message_interval_follows_loading :
  forall happenings,
    let r := fold_left App.happen happenings App.mounted in
    (App.rendered r = App.loading ->
     exists id i,
       App.loadingMessageIntervalRef r = Some id
       /\ App.intervals r = [(id, i)]
       /\ i < length App.LOADING_MESSAGES
       /\ App.loadingMessage r = nth_error App.LOADING_MESSAGES i)
    /\ (App.rendered r <> App.loading ->
        App.loadingMessageIntervalRef r = None /\ App.intervals r = [])
    /\ App.intervals (App.unmount r) = [].
Proof.
  intros happenings r.
  destruct (rotationInvariant_happen happenings) as [Hn Hr]. fold r in Hn, Hr.
  unfold App.unmount, App.loadingCleanup.
  destruct (App.rendered r).
  2:{ destruct Hr as (id & i & Hid & Href & Hint & Hi & Hmsg).
      split; [| split].
      - intros _. exists id, i. now repeat split.
      - intros H. now contradiction H.
      - rewrite Href, Hint. cbn [App.truthyRef].
        apply N.eqb_neq in Hid. rewrite Hid. cbn. now rewrite N.eqb_refl. }
  all: destruct Hr as [Href Hint]; split; [discriminate | split];
    [now split | rewrite Href; cbn; exact Hint].
Qed.

Lemma fire_rotates r id i n :
  App.intervals r = [(id, i)] ->
  i < length App.LOADING_MESSAGES ->
  App.loadingMessage r = nth_error App.LOADING_MESSAGES i ->
  App.loadingMessage (fold_left App.happen (repeat (App.Fire id) n) r)
  = nth_error App.LOADING_MESSAGES ((i + n) mod length App.LOADING_MESSAGES).
Proof.
  revert r i. induction n as [| n IH]; intros r i Hint Hi Hmsg.
  - cbn [repeat fold_left]. rewrite Nat.add_0_r, Nat.mod_small; assumption.
  - cbn [repeat fold_left App.happen].
    rewrite (IH _ ((i + 1) mod length App.LOADING_MESSAGES)).
    + rewrite Nat.Div0.add_mod_idemp_l. f_equal. f_equal. lia.
    + unfold App.tick. rewrite Hint. cbn [find fst]. rewrite N.eqb_refl.
      cbn [App.intervals map fst]. now rewrite N.eqb_refl.
    + apply Nat.mod_upper_bound. discriminate.
    + unfold App.tick. rewrite Hint. cbn [find fst]. rewrite N.eqb_refl.
      reflexivity.
Qed.

(** X18: when the loading panel comes up, the first of [LOADING_MESSAGES]
    is shown, and after [n] callbacks of the interval the message shown is
    the one at index [n] modulo the number of messages: the messages are
    shown in order and start over after the last. *)
Theorem loading_messages_rotate :
  forall happenings n,
    let r := fold_left App.happen happenings App.mounted in
    App.rendered r <> App.loading ->
    App.loadingMessage
      (fold_left App.happen
         (App.Render App.loading :: repeat (App.Fire (App.nextHandle r)) n)
         r)
    = nth_error App.LOADING_MESSAGES (n mod length App.LOADING_MESSAGES).
Proof.
  intros happenings n r Hr.
  pose proof (rotationInvariant_render App.loading
                (rotationInvariant_happen happenings)) as Hinv.
  fold r in Hinv. cbn [fold_left].
  assert (Hnew : App.happen r (App.Render App.loading)
                 = App.loadingEffect App.loading (App.loadingCleanup r)).
  { cbn [App.happen]. destruct (App.rendered r); try reflexivity.
    now contradiction Hr. }
  assert (Hh : App.intervals (App.happen r (App.Render App.loading))
               = [(App.nextHandle r, 0)]).
  { destruct (rotationInvariant_happen happenings) as [_ Hold].
    fold r in Hold. rewrite Hnew. unfold App.loadingCleanup.
    destruct (App.rendered r); try (now contradiction Hr);
      destruct Hold as [Href Hint]; rewrite Href; cbn; now rewrite Hint. }
  rewrite (fire_rotates _ n Hh).
  - reflexivity.
  - cbn. lia.
  - rewrite Hnew. reflexivity.
Qed.

Lemma loading_messages_rotate_witness :
  App.loadingMessage
    (fold_left App.happen
       (App.Render App.loading :: repeat (App.Fire 2%N) 10)
       (fold_left App.happen
          [App.Render App.loading; App.Fire 1%N; App.Render App.error;
           App.Render App.idle]
          App.mounted))
  = Some (lit "Scouting virtual locations...").
Proof.
  pose proof (@loading_messages_rotate
                [App.Render App.loading; App.Fire 1%N; App.Render App.error;
                 App.Render App.idle] 10) as H.
  cbv zeta in H. specialize (H ltac:(discriminate)).
  vm_compute in H |- *. exact H.
Defined.

(** ** The image preview *)

Lemma previewInvariant_render v imageFile :
  previewInvariant v -> previewInvariant (App.renderImage v imageFile).
Proof.
  intros Hinv. unfold App.renderImage, previewInvariant in *.
  destruct v as [shown preview held live next].
  cbn [App.previewed App.imagePreview App.objectUrl App.liveUrls] in *.
  destruct shown as [f |].
  - destruct Hinv as (u & -> & -> & ->).
    unfold App.previewCleanup, App.previewEffect.
    cbn [App.objectUrl App.liveUrls App.nextUrl App.revokeObjectURL filter].
    rewrite N.eqb_refl. cbn [negb].
    destruct imageFile; cbn; [now exists next | tauto].
  - destruct Hinv as (-> & -> & ->).
    destruct imageFile; cbn; [now exists next | tauto].
Qed.

Lemma previewInvariant_reset v :
  previewInvariant v -> previewInvariant (App.previewReset v).
Proof.
  intros Hinv. unfold App.previewReset, App.renderImage, previewInvariant in *.
  destruct v as [shown preview held live next].
  cbn [App.previewed App.imagePreview App.objectUrl App.liveUrls] in *.
  destruct shown as [f |].
  - destruct Hinv as (u & -> & -> & ->).
    unfold App.previewCleanup, App.previewEffect.
    cbn [App.objectUrl App.liveUrls App.nextUrl App.revokeObjectURL filter].
    rewrite N.eqb_refl. cbn. tauto.
  - destruct Hinv as (-> & -> & ->). cbn. tauto.
Qed.

Lemma previewInvariant_happen events :
  previewInvariant (fold_left App.previewHappen events App.previewMounted).
Proof.
  induction events as [| e es IH] using rev_ind.
  - cbn. tauto.
  - rewrite fold_left_app. cbn [fold_left].
    destruct e as [imageFile |]; cbn [App.previewHappen].
    + now apply previewInvariant_render.
    + now apply previewInvariant_reset.
Qed.

(** X19: through any sequence of image changes and resets after the first
    render, a preview is shown exactly when an image is chosen, and the
    document holds exactly the object URL of that preview: the URL made for
    an image is revoked when the image is replaced or removed. Unmounting
    leaves no object URL of a preview behind. *)
Theorem preview_urls_are_revoked :
  forall events,
    let v := fold_left App.previewHappen events App.previewMounted in
    (App.previewed v = None ->
     App.imagePreview v = None /\ App.liveUrls v = [])
    /\ (App.previewed v <> None ->
        exists u, App.imagePreview v = Some u /\ App.liveUrls v = [u])
    /\ App.liveUrls (App.previewCleanup v) = [].
Proof.
  intros events v. pose proof (previewInvariant_happen events) as Hinv.
  fold v in Hinv. unfold previewInvariant, App.previewCleanup in *.
  destruct (App.previewed v) as [f |].
  - destruct Hinv as (u & Hp & Hh & Hl). split; [discriminate | split].
    + intros _. now exists u.
    + rewrite Hh, Hl. cbn. now rewrite N.eqb_refl.
  - destruct Hinv as (Hp & Hh & Hl). split; [tauto | split].
    + intros H. now contradiction H.
    + now rewrite Hh.
Qed.
